(** * NextVibe wallet: transaction history pipeline

    A shallow embedding of the transaction classification and formatting
    pipeline of the wallet:

    - [Parser]   : src/utils/solana/transactionParser.ts
                   ([extractSOLAddresses], [extractTokenAddresses],
                   [formatTransactions]);
    - [Grouping] : src/utils/solana/transactionUtils.ts
                   ([groupTransactionsByDate]);
    - [History]  : screens/TransactionsHistoryScreen.tsx
                   ([fetchTransactions], [loadMore], [onRefresh]).

    Conventions of the embedding.  JavaScript numbers that hold lamports are
    integers and are modelled by [Z]; the result of an arithmetic operation
    one of whose operands is [undefined] is [NaN], modelled by [None], and
    every comparison with [NaN] is false.  UI token amounts and amounts in
    SOL are modelled by exact rationals [Q].  A [Date] is its number of
    milliseconds since the epoch. *)

From Stdlib Require Import ZArith QArith Qabs List String Bool Arith Lia.
From Stdlib Require Import Permutation DecimalString.
Import ListNotations.

Local Open Scope string_scope.
Local Open Scope list_scope.
Local Open Scope Z_scope.

(** ** JavaScript helpers *)

Module Js.

(** [a || b] for a possibly missing string [a]: [undefined], [null] and
    the empty string are falsy. *)
Definition or_else (a : option string) (b : string) : string :=
  match a with
  | Some s => if (s =? "")%string then b else s
  | None => b
  end.

(** Truthiness of a possibly missing string. *)
Definition truthy (a : option string) : bool :=
  match a with
  | Some s => negb (s =? "")%string
  | None => false
  end.

(** [a === b] on possibly missing strings. *)
Definition strict_eq (a b : option string) : bool :=
  match a, b with
  | Some x, Some y => (x =? y)%string
  | None, None => true
  | _, _ => false
  end.

(** [xs.indexOf(x)]; [None] stands for [-1]. *)
Fixpoint indexOf (xs : list string) (x : string) : option nat :=
  match xs with
  | [] => None
  | y :: ys =>
      if (y =? x)%string then Some 0%nat
      else option_map S (indexOf ys x)
  end.

(** [post[i] - pre[i]] on number arrays: [NaN] when either is missing. *)
Definition sub_at (post pre : list Z) (i : nat) : option Z :=
  match nth_error post i, nth_error pre i with
  | Some a, Some b => Some (a - b)
  | _, _ => None
  end.

(** [x < y] and [x > y] on numbers. *)
Definition Qlt_bool (x y : Q) : bool := negb (Qle_bool y x).

End Js.

(** ** The transaction parser *)

Module Parser.

(** *** Types of @solana/web3.js, as far as the parser reads them *)

(** [parsed.info] of a transfer instruction.  The RPC's jsonParsed
    encoding of a system or spl-token transfer always carries [source]
    and [destination]; [authority] is absent from multisig transfers. *)
Record Info := {
  source : string;
  destination : string;
  authority : option string
}.

(** [ix.parsed], when it is an object with a [type]. *)
Record Parsed := {
  ptype : string;
  info : Info
}.

(** [ParsedInstruction | PartiallyDecodedInstruction]: only the former has
    the fields [program] and [parsed]. *)
Inductive Instruction :=
| ParsedInstruction (program : string) (parsed : option Parsed)
| PartiallyDecodedInstruction.

Record ParsedInnerInstruction := {
  index : nat;
  inner_instructions : list Instruction
}.

Record UiTokenAmount := {
  uiAmount : option Q
}.

Record TokenBalance := {
  accountIndex : nat;
  mint : string;
  owner : option string;
  uiTokenAmount : UiTokenAmount
}.

(** [TransactionError]: an error name or object of the RPC, never falsy. *)
Inductive TransactionError :=
| TxError (description : string).

Record ParsedTransactionMeta := {
  err : option TransactionError;
  innerInstructions : option (list ParsedInnerInstruction);
  preBalances : list Z;
  postBalances : list Z;
  preTokenBalances : option (list TokenBalance);
  postTokenBalances : option (list TokenBalance)
}.

(** [accountKeys] holds [k.pubkey.toBase58()] of each key. *)
Record ParsedMessage := {
  accountKeys : list string;
  instructions : list Instruction
}.

Record ParsedTransaction := {
  signatures : list string;
  message : ParsedMessage
}.

Record ParsedTransactionWithMeta := {
  blockTime : option Z;
  meta : option ParsedTransactionMeta;
  transaction : option ParsedTransaction
}.

(** *** src/types/solana.ts *)

Definition Date := Z.

Inductive TransactionType := sent | received.

Record FormattedTransaction := {
  signature : option string;
  type : TransactionType;
  token : string;
  amount : Q;
  from : string;
  to : string;
  time : option Date
}.

(** The pair returned by the two resolvers. *)
Record Addresses := {
  addr_from : string;
  addr_to : string
}.

(** *** Constants *)

(** Minimum change of lamports for a transfer to count (0.000005 SOL). *)
Definition MIN_SOL_CHANGE : Z := 5000.

(** The constant of @solana/web3.js. *)
Definition LAMPORTS_PER_SOL : Z := 1000000000.

(** [TOKEN_MINT_CONSTANTS.USDC_MINT] of constants/Tokens.ts. *)
Definition USDC_MINT : string :=
  "4zMMC9srt5Ri5X14GAgXhaHii3GnPAEERYPJgZJDncDU".

Definition external : string := "external".

(** *** Instruction scanning *)

(** Top-level instructions followed by the instructions of every inner
    group, in order. *)
Definition allInstructions (t : ParsedTransaction)
    (m : option ParsedTransactionMeta) : list Instruction :=
  match option_map innerInstructions m with
  | Some (Some inners) =>
      fold_left (fun acc inner => acc ++ inner_instructions inner)
                inners (instructions (message t))
  | _ => instructions (message t)
  end.

Definition isSystemTransferOf (myAddress : string) (ix : Instruction)
    : bool :=
  match ix with
  | ParsedInstruction program (Some p) =>
      if (program =? "system")%string && (ptype p =? "transfer")%string
      then (source (info p) =? myAddress)%string
           || (destination (info p) =? myAddress)%string
      else false
  | _ => false
  end.

Definition isSplTransfer (ix : Instruction) : bool :=
  match ix with
  | ParsedInstruction program (Some p) =>
      ((ptype p =? "transfer")%string
       || (ptype p =? "transferChecked")%string)
      && (program =? "spl-token")%string
  | _ => false
  end.

(** *** extractSOLAddresses *)

(** One iteration of the loop of the SENT branch: state is
    [(maxChange, counterparty)]. *)
Definition scanSent (accountKeys : list string)
    (preBalances postBalances : list Z) (myIndex : nat)
    (st : Z * string) (i : nat) : Z * string :=
  if (i =? myIndex)%nat then st
  else
    match Js.sub_at postBalances preBalances i with
    | Some diff =>
        if diff >? fst st then (diff, nth i accountKeys "") else st
    | None => st
    end.

(** One iteration of the loop of the RECEIVED branch. *)
Definition scanReceived (accountKeys : list string)
    (preBalances postBalances : list Z) (myIndex : nat)
    (st : Z * string) (i : nat) : Z * string :=
  if (i =? myIndex)%nat then st
  else
    match Js.sub_at postBalances preBalances i with
    | Some diff =>
        if (diff <? 0) && (Z.abs diff >? fst st)
        then (Z.abs diff, nth i accountKeys "") else st
    | None => st
    end.

(** The balance-change fallback (step 3 of [extractSOLAddresses]). *)
Definition balanceFallback (t : ParsedTransaction)
    (m : option ParsedTransactionMeta) (myAddress : string) : Addresses :=
  let accountKeys := accountKeys (message t) in
  let preBalances :=
    match m with Some m => preBalances m | None => [] end in
  let postBalances :=
    match m with Some m => postBalances m | None => [] end in
  match Js.indexOf accountKeys myAddress with
  | None => {| addr_from := external; addr_to := external |}
  | Some myIndex =>
      let myDiff := Js.sub_at postBalances preBalances myIndex in
      let init := (MIN_SOL_CHANGE, external) in
      let indices := seq 0 (List.length accountKeys) in
      if match myDiff with Some d => d <? 0 | None => false end then
        let st :=
          fold_left
            (scanSent accountKeys preBalances postBalances myIndex)
            indices init in
        {| addr_from := myAddress; addr_to := snd st |}
      else
        let st :=
          fold_left
            (scanReceived accountKeys preBalances postBalances myIndex)
            indices init in
        {| addr_from := snd st; addr_to := myAddress |}
  end.

(** [extractSOLAddresses(tx, myAddress)], for a [tx] whose [transaction]
    is [t] and whose [meta] is [m].  The source never returns [null]. *)
Definition extractSOLAddresses (t : ParsedTransaction)
    (m : option ParsedTransactionMeta) (myAddress : string)
    : option Addresses :=
  match find (isSystemTransferOf myAddress) (allInstructions t m) with
  | Some (ParsedInstruction _ (Some p)) =>
      Some {| addr_from := source (info p);
              addr_to := destination (info p) |}
  | _ => Some (balanceFallback t m myAddress)
  end.

(** *** extractTokenAddresses *)

Definition resolveOwner (accountKeys : list string)
    (preTokenBalances postTokenBalances : list TokenBalance)
    (tokenAccountAddr : string) : option string :=
  let at_addr (b : TokenBalance) :=
    Js.strict_eq (nth_error accountKeys (accountIndex b))
                 (Some tokenAccountAddr) in
  let pre := find at_addr preTokenBalances in
  if Js.truthy (match pre with Some b => owner b | None => None end)
  then match pre with Some b => owner b | None => None end
  else
    let post := find at_addr postTokenBalances in
    if Js.truthy (match post with Some b => owner b | None => None end)
    then match post with Some b => owner b | None => None end
    else None.

Definition extractTokenAddresses (t : ParsedTransaction)
    (m : option ParsedTransactionMeta) (accountAddress : string)
    (tokenAccountIndex : nat)
    (preTokenBalances postTokenBalances : list TokenBalance)
    : option Addresses :=
  match find isSplTransfer (allInstructions t m) with
  | Some (ParsedInstruction _ (Some p)) =>
      let info := info p in
      let accountKeys := accountKeys (message t) in
      let sourceOwner :=
        resolveOwner accountKeys preTokenBalances postTokenBalances
                     (source info) in
      let destOwner :=
        resolveOwner accountKeys preTokenBalances postTokenBalances
                     (destination info) in
      let isSender :=
        Js.strict_eq sourceOwner (Some accountAddress)
        || Js.strict_eq (authority info) (Some accountAddress) in
      if isSender then
        Some {| addr_from := accountAddress;
                addr_to :=
                  Js.or_else destOwner
                    (Js.or_else (Some (destination info)) external) |}
      else
        Some {| addr_from :=
                  Js.or_else sourceOwner
                    (Js.or_else (Some (source info)) external);
                addr_to := accountAddress |}
  | _ => Some {| addr_from := external; addr_to := external |}
  end.

(** *** formatTransactions *)

(** [x || 0] on a number that may be [null]. *)
Definition num_or_0 (x : option Q) : Q :=
  match x with
  | Some q => if Qeq_bool q 0 then 0%Q else q
  | None => 0%Q
  end.

(** What the block "1. SOL Transfers" does to the current iteration. *)
Inductive SolOutcome :=
| SolContinue
| SolNothing
| SolPush (e : FormattedTransaction).

(** Block "1. SOL Transfers" of the loop body: [SolContinue] is the
    [continue] of the self-transfer test, which abandons the iteration;
    [SolPush e] is [result.push(e)]; in the last two cases control falls
    through to block 2. *)
Definition solTransfer (accountAddress : string) (t : ParsedTransaction)
    (m : ParsedTransactionMeta) (signature : option string)
    (time : option Date) : SolOutcome :=
  match Js.indexOf (accountKeys (message t)) accountAddress with
  | None => SolNothing
  | Some myIndex =>
      let pre := nth myIndex (preBalances m) 0 in
      let post := nth myIndex (postBalances m) 0 in
      let diff := post - pre in
      if Z.abs diff >? MIN_SOL_CHANGE then
        let diffSOL := (inject_Z diff / inject_Z LAMPORTS_PER_SOL)%Q in
        let addresses := extractSOLAddresses t (Some m) accountAddress in
        if Js.strict_eq (option_map addr_from addresses)
                        (option_map addr_to addresses)
        then SolContinue
        else
          SolPush
            {| signature := signature;
               type := if Js.Qlt_bool 0 diffSOL then received else sent;
               token := "SOL";
               amount := Qabs diffSOL;
               from :=
                 Js.or_else (option_map addr_from addresses)
                   (if Js.Qlt_bool 0 diffSOL
                    then external else accountAddress);
               to :=
                 Js.or_else (option_map addr_to addresses)
                   (if Js.Qlt_bool 0 diffSOL
                    then accountAddress else external);
               time := time |}
      else SolNothing
  end.

(** One iteration of the loop of block "2. Token Transfers": the event
    pushed for [post], if any. *)
Definition tokenTransfer (accountAddress : string) (t : ParsedTransaction)
    (m : ParsedTransactionMeta) (signature : option string)
    (time : option Date) (preTokens postTokens : list TokenBalance)
    (post : TokenBalance) : option FormattedTransaction :=
  if negb (Js.strict_eq (owner post) (Some accountAddress)) then None
  else
    let pre :=
      find (fun p => (accountIndex p =? accountIndex post)%nat)
           preTokens in
    let diff :=
      (num_or_0 (uiAmount (uiTokenAmount post))
       - num_or_0 (match pre with
                   | Some p => uiAmount (uiTokenAmount p)
                   | None => None
                   end))%Q in
    if Qeq_bool (Qabs diff) 0 then None
    else
      let addresses :=
        extractTokenAddresses t (Some m) accountAddress
          (accountIndex post) preTokens postTokens in
      let tokenSymbol :=
        if (mint post =? USDC_MINT)%string then "USDC" else mint post in
      Some
        {| signature := signature;
           type := if Js.Qlt_bool 0 diff then received else sent;
           token := tokenSymbol;
           amount := Qabs diff;
           from :=
             Js.or_else (option_map addr_from addresses)
               (if Js.Qlt_bool 0 diff then external else accountAddress);
           to :=
             Js.or_else (option_map addr_to addresses)
               (if Js.Qlt_bool 0 diff then accountAddress else external);
           time := time |}.

(** [result.push(e)] when the iteration produced [e]. *)
Definition push (result : list FormattedTransaction)
    (e : option FormattedTransaction) : list FormattedTransaction :=
  match e with
  | Some e => result ++ [e]
  | None => result
  end.

(** [tx.transaction.signatures[0]]. *)
Definition signatureOf (t : ParsedTransaction) : option string :=
  nth_error (signatures t) 0.

(** [tx.blockTime ? new Date(tx.blockTime * 1000) : null]. *)
Definition timeOf (tx : ParsedTransactionWithMeta) : option Date :=
  match blockTime tx with
  | Some b => if b =? 0 then None else Some (b * 1000)
  | None => None
  end.

(** [tx.meta.preTokenBalances ?? []] and [tx.meta.postTokenBalances ?? []]. *)
Definition preTokensOf (m : ParsedTransactionMeta) : list TokenBalance :=
  match preTokenBalances m with Some l => l | None => [] end.

Definition postTokensOf (m : ParsedTransactionMeta) : list TokenBalance :=
  match postTokenBalances m with Some l => l | None => [] end.

(** Block "2. Token Transfers": the loop over [postTokens]. *)
Definition tokenTransfers (accountAddress : string)
    (t : ParsedTransaction) (m : ParsedTransactionMeta)
    (time : option Date) (result : list FormattedTransaction)
    : list FormattedTransaction :=
  fold_left
    (fun result post =>
       push result
         (tokenTransfer accountAddress t m (signatureOf t) time
            (preTokensOf m) (postTokensOf m) post))
    (postTokensOf m) result.

(** The body of [for (const tx of transactions)], as a transformer of
    [result]. *)
Definition formatTransaction (accountAddress : string)
    (result : list FormattedTransaction) (tx : ParsedTransactionWithMeta)
    : list FormattedTransaction :=
  match meta tx, transaction tx with
  | Some m, Some t =>
      match err m with
      | Some _ => result
      | None =>
          match
            solTransfer accountAddress t m (signatureOf t) (timeOf tx)
          with
          | SolContinue => result
          | SolNothing =>
              tokenTransfers accountAddress t m (timeOf tx) result
          | SolPush e =>
              tokenTransfers accountAddress t m (timeOf tx) (result ++ [e])
          end
      end
  | _, _ => result
  end.

Definition formatTransactions (accountAddress : string)
    (transactions : list ParsedTransactionWithMeta)
    : list FormattedTransaction :=
  fold_left (formatTransaction accountAddress) transactions [].

End Parser.

(** ** Grouping by calendar day *)

Module Grouping.

Import Parser.

Record TransactionSection := {
  title : string;
  data : list FormattedTransaction
}.

(** The object [acc] of the reduction: its own string keys with their
    arrays, in insertion order.  [Object.keys] lists the own string keys
    of an object in insertion order, array indices excepted; the section
    titles are 'Today', 'Yesterday' and the en-US long dates, none of
    which is an array index or a property of [Object.prototype]. *)
Definition Groups := list (string * list FormattedTransaction).

(** [acc[k]], [undefined] being [None]. *)
Fixpoint get (acc : Groups) (k : string)
    : option (list FormattedTransaction) :=
  match acc with
  | [] => None
  | (k', v) :: rest => if (k' =? k)%string then Some v else get rest k
  end.

(** [acc[k] = v]: an existing key keeps its place, a new one goes last. *)
Fixpoint set (acc : Groups) (k : string)
    (v : list FormattedTransaction) : Groups :=
  match acc with
  | [] => [(k, v)]
  | (k', v') :: rest =>
      if (k' =? k)%string then (k', v) :: rest
      else (k', v') :: set rest k v
  end.

Definition keys (acc : Groups) : list string := map fst acc.

Section DateRuntime.

(** The [Date] methods of the runtime, in the local time zone, and the
    successive values of [new Date()] during one call. *)
Variables getFullYear getMonth getDate : Date -> Z.
Variable setDate : Date -> Z -> Date.
Variable toLocaleDateString : Date -> string.
Variable clock : nat -> Date.

Definition isSameDay (d1 d2 : Date) : bool :=
  (getFullYear d1 =? getFullYear d2)
  && (getMonth d1 =? getMonth d2)
  && (getDate d1 =? getDate d2).

Definition sectionTitle (today yesterday date : Date) : string :=
  if isSameDay date today then "Today"
  else if isSameDay date yesterday then "Yesterday"
  else toLocaleDateString date.

(** The callback of [reduce].  The state pairs [acc] with the number of
    [new Date()] evaluated so far. *)
Definition reducer (today yesterday : Date) (st : Groups * nat)
    (transaction : FormattedTransaction) : Groups * nat :=
  let '(acc, n) := st in
  let '(date, n) :=
    match time transaction with
    | Some d => (d, n)
    | None => (clock n, S n)
    end in
  let sectionTitle := sectionTitle today yesterday date in
  let acc :=
    match get acc sectionTitle with
    | Some _ => acc
    | None => set acc sectionTitle []
    end in
  let acc :=
    match get acc sectionTitle with
    | Some l => set acc sectionTitle (l ++ [transaction])
    | None => acc
    end in
  (acc, n).

Definition groupTransactionsByDate
    (transactions : list FormattedTransaction)
    : list TransactionSection :=
  match transactions with
  | [] => []
  | _ =>
      let today := clock 0 in
      let yesterday := setDate (clock 1) (getDate today - 1) in
      let grouped :=
        fst (fold_left (reducer today yesterday) transactions
                       ([], 2%nat)) in
      map (fun title =>
             {| title := title;
                data := match get grouped title with
                        | Some l => l
                        | None => []
                        end |})
          (keys grouped)
  end.

End DateRuntime.

End Grouping.

(** ** The history screen *)

Module History.

Import Parser.

(** The [useState] cells of the screen that pagination reads or writes. *)
Record State := {
  transactions : list FormattedTransaction;
  loading : bool;
  refreshing : bool;
  loadingMore : bool;
  error : option string;
  lastSignature : option string;
  hasMore : bool
}.

(** A computation over the cells that returns or throws. *)
Inductive Result (A : Type) :=
| Ok (a : A)
| Throw (message : string).
Arguments Ok {A} a.
Arguments Throw {A} message.

Definition M (A : Type) : Type := State -> Result A * State.

Definition ret {A} (a : A) : M A := fun s => (Ok a, s).

Definition bind {A B} (c : M A) (k : A -> M B) : M B :=
  fun s =>
    match c s with
    | (Ok a, s') => k a s'
    | (Throw e, s') => (Throw e, s')
    end.

Definition throw {A} (message : string) : M A :=
  fun s => (Throw message, s).

(** [try { body } catch (err) { handler } finally { final }]. *)
Definition try_catch_finally (body : M unit) (handler : string -> M unit)
    (final : M unit) : M unit :=
  fun s =>
    match body s with
    | (Ok tt, s') => final s'
    | (Throw e, s') =>
        match handler e s' with
        | (Ok tt, s'') => final s''
        | (Throw e', s'') =>
            match final s'' with
            | (Ok tt, s3) => (Throw e', s3)
            | (Throw e3, s3) => (Throw e3, s3)
            end
        end
    end.

Definition when (b : bool) (c : M unit) : M unit :=
  if b then c else ret tt.

Declare Scope hist_scope.
Delimit Scope hist_scope with hist.
Notation "x <- c ;; k" := (bind c (fun x => k))
  (at level 61, c at next level, right associativity) : hist_scope.
Notation "c ;; k" := (bind c (fun _ => k))
  (at level 61, right associativity) : hist_scope.
Local Open Scope hist_scope.

(** The setters. *)
Definition setTransactions
    (f : list FormattedTransaction -> list FormattedTransaction)
    : M unit :=
  fun s =>
    (Ok tt,
     {| transactions := f (transactions s); loading := loading s;
        refreshing := refreshing s; loadingMore := loadingMore s;
        error := error s; lastSignature := lastSignature s;
        hasMore := hasMore s |}).

Definition setLoading (b : bool) : M unit :=
  fun s =>
    (Ok tt,
     {| transactions := transactions s; loading := b;
        refreshing := refreshing s; loadingMore := loadingMore s;
        error := error s; lastSignature := lastSignature s;
        hasMore := hasMore s |}).

Definition setRefreshing (b : bool) : M unit :=
  fun s =>
    (Ok tt,
     {| transactions := transactions s; loading := loading s;
        refreshing := b; loadingMore := loadingMore s;
        error := error s; lastSignature := lastSignature s;
        hasMore := hasMore s |}).

Definition setLoadingMore (b : bool) : M unit :=
  fun s =>
    (Ok tt,
     {| transactions := transactions s; loading := loading s;
        refreshing := refreshing s; loadingMore := b;
        error := error s; lastSignature := lastSignature s;
        hasMore := hasMore s |}).

Definition setError (e : option string) : M unit :=
  fun s =>
    (Ok tt,
     {| transactions := transactions s; loading := loading s;
        refreshing := refreshing s; loadingMore := loadingMore s;
        error := e; lastSignature := lastSignature s;
        hasMore := hasMore s |}).

Definition setLastSignature (sig : option string) : M unit :=
  fun s =>
    (Ok tt,
     {| transactions := transactions s; loading := loading s;
        refreshing := refreshing s; loadingMore := loadingMore s;
        error := error s; lastSignature := sig;
        hasMore := hasMore s |}).

Definition setHasMore (b : bool) : M unit :=
  fun s =>
    (Ok tt,
     {| transactions := transactions s; loading := loading s;
        refreshing := refreshing s; loadingMore := loadingMore s;
        error := error s; lastSignature := lastSignature s;
        hasMore := b |}).

(** The values of the cells seen by the handler that is running. *)
Definition render : M State := fun s => (Ok s, s).

Section Fetch.

(** [SolanaService.getTransactionsHistory(connection, walletAddress,
    false, before)] at the time of the call: the page of events older
    than [before] (the newest page when [before] is [undefined]), or
    [null] when the request failed. *)
Variable getTransactionsHistory :
  option string -> option (list FormattedTransaction).

Definition fetchTransactions (reset : bool) : M unit :=
  cells <- render ;;
  try_catch_finally
    (when reset
       (setLoading true ;;
        setLastSignature None ;;
        setHasMore true) ;;
     setError None ;;
     let data :=
       getTransactionsHistory
         (if reset then None else lastSignature cells) in
     match data with
     | None => throw "Failed to fetch transactions"
     | Some data =>
         (if reset then setTransactions (fun _ => data)
          else setTransactions (fun prev => prev ++ data)) ;;
         when (0 <? List.length data)%nat
           (setLastSignature
              (match nth_error data (List.length data - 1) with
               | Some e => signature e
               | None => None
               end)) ;;
         when (List.length data =? 0)%nat (setHasMore false)
     end)
    (fun _ => setError (Some "Error loading transactions"))
    (setLoading false).

Definition onRefresh : M unit :=
  setRefreshing true ;;
  fetchTransactions true ;;
  setRefreshing false.

Definition loadMore : M unit :=
  cells <- render ;;
  if loadingMore cells || negb (hasMore cells) then ret tt
  else
    setLoadingMore true ;;
    fetchTransactions false ;;
    setLoadingMore false.

End Fetch.

(** The cells after a handler has run. *)
Definition exec (c : M unit) (s : State) : State := snd (c s).

End History.

(** ** The notions of the design document, over the embedding *)

Module Design.

Import Parser.

Definition to_list {A : Type} (o : option A) : list A :=
  match o with
  | Some a => [a]
  | None => []
  end.

(** The token-leg events of one transaction, in the order of its
    post-transaction token balances. *)
Definition tokenLegs (accountAddress : string) (t : ParsedTransaction)
    (m : ParsedTransactionMeta) (time : option Date)
    : list FormattedTransaction :=
  flat_map
    (fun post =>
       to_list
         (tokenTransfer accountAddress t m (signatureOf t) time
            (preTokensOf m) (postTokensOf m) post))
    (postTokensOf m).

(** The events derived from one transaction: none for a failed or
    incomplete transaction, else the native-leg event, when there is one,
    followed by the token-leg events. *)
Definition eventsOf (accountAddress : string)
    (tx : ParsedTransactionWithMeta) : list FormattedTransaction :=
  match meta tx, transaction tx with
  | Some m, Some t =>
      match err m with
      | Some _ => []
      | None =>
          match
            solTransfer accountAddress t m (signatureOf t) (timeOf tx)
          with
          | SolContinue => []
          | SolNothing => tokenLegs accountAddress t m (timeOf tx)
          | SolPush e => e :: tokenLegs accountAddress t m (timeOf tx)
          end
      end
  | _, _ => []
  end.

(** The native balance delta of the tracked address, post minus pre, in
    lamports; [None] when the address is not an account key. *)
Definition nativeDelta (accountAddress : string) (t : ParsedTransaction)
    (m : ParsedTransactionMeta) : option Z :=
  match Js.indexOf (accountKeys (message t)) accountAddress with
  | Some myIndex =>
      Some (nth myIndex (postBalances m) 0 - nth myIndex (preBalances m) 0)
  | None => None
  end.

(** The delta of a token balance entry: post minus pre, the pre entry
    being the first one with the same account index. *)
Definition tokenDelta (m : ParsedTransactionMeta) (post : TokenBalance)
    : Q :=
  (num_or_0 (uiAmount (uiTokenAmount post))
   - num_or_0
       (match
          find (fun p => (accountIndex p =? accountIndex post)%nat)
               (preTokensOf m)
        with
        | Some p => uiAmount (uiTokenAmount p)
        | None => None
        end))%Q.

(** *** The counterparty of the balance-delta fallback *)

(** What an account other than the tracked one contributes to the scan:
    its delta when the tracked wallet sent, the magnitude of its delta,
    if negative, when the tracked wallet received. *)
Definition gainOf (preBalances postBalances : list Z) (i : nat)
    : option Z :=
  Js.sub_at postBalances preBalances i.

Definition lossOf (preBalances postBalances : list Z) (i : nat)
    : option Z :=
  match Js.sub_at postBalances preBalances i with
  | Some d => if d <? 0 then Some (Z.abs d) else None
  | None => None
  end.

(** [j] is the first of the accounts other than [myIndex], among the
    first [n], whose score is the largest and exceeds the dust
    threshold. *)
Definition firstLargest (score : nat -> option Z) (n myIndex j : nat)
    : Prop :=
  (j < n)%nat /\ j <> myIndex
  /\ exists v,
       score j = Some v /\ MIN_SOL_CHANGE < v
       /\ (forall k w, (k < n)%nat -> k <> myIndex ->
                       score k = Some w -> w <= v)
       /\ (forall k w, (k < j)%nat -> k <> myIndex ->
                       score k = Some w -> w < v).

(** [c] is the counterparty the design document asks for: the key of the
    first largest account, else [external]. *)
Definition counterpartyBy (score : nat -> option Z) (keys : list string)
    (myIndex : nat) (c : string) : Prop :=
  (c = external
   /\ forall k w, (k < List.length keys)%nat -> k <> myIndex ->
                  score k = Some w -> w <= MIN_SOL_CHANGE)
  \/ exists j,
       firstLargest score (List.length keys) myIndex j
       /\ nth_error keys j = Some c.

(** Both loops of the fallback are this scan, for one of the two
    scores. *)
Definition scanStep (keys : list string) (score : nat -> option Z)
    (myIndex : nat) (st : Z * string) (i : nat) : Z * string :=
  if (i =? myIndex)%nat then st
  else
    match score i with
    | Some v => if v >? fst st then (v, nth i keys "") else st
    | None => st
    end.

(** What holds of the state of the scan after the first [n] accounts. *)
Definition scanned (keys : list string) (score : nat -> option Z)
    (myIndex n : nat) (st : Z * string) : Prop :=
  (st = (MIN_SOL_CHANGE, external)
   /\ forall k w, (k < n)%nat -> k <> myIndex ->
                  score k = Some w -> w <= MIN_SOL_CHANGE)
  \/ exists j,
       (j < n)%nat /\ j <> myIndex
       /\ score j = Some (fst st) /\ MIN_SOL_CHANGE < fst st
       /\ snd st = nth j keys ""
       /\ (forall k w, (k < n)%nat -> k <> myIndex ->
                       score k = Some w -> w <= fst st)
       /\ (forall k w, (k < j)%nat -> k <> myIndex ->
                       score k = Some w -> w < fst st).

(** *** Non-empty addresses *)

Definition nonEmpty (s : string) : bool := negb (s =? "")%string.

(** The account keys, and the source and destination of every system
    transfer that names the tracked address, are non-empty strings (base58
    keys are). *)
Definition addressesPresent (accountAddress : string)
    (t : ParsedTransaction) (m : ParsedTransactionMeta) : bool :=
  forallb nonEmpty (accountKeys (message t))
  && forallb
       (fun ix =>
          negb (isSystemTransferOf accountAddress ix)
          || match ix with
             | ParsedInstruction _ (Some p) =>
                 nonEmpty (source (info p))
                 && nonEmpty (destination (info p))
             | _ => true
             end)
       (allInstructions t (Some m)).

(** Exactly one of [from] and [to] is the tracked address. *)
Definition oneSided (accountAddress : string) (e : FormattedTransaction)
    : Prop :=
  (from e = accountAddress /\ to e <> accountAddress)
  \/ (from e <> accountAddress /\ to e = accountAddress).

(** *** The legs of a transaction *)

(** [e] is the event that block 1 pushes for [tx]. *)
Definition isNativeLeg (accountAddress : string)
    (tx : ParsedTransactionWithMeta) (e : FormattedTransaction) : Prop :=
  exists m t,
    meta tx = Some m /\ transaction tx = Some t /\ err m = None
    /\ solTransfer accountAddress t m (signatureOf t) (timeOf tx)
       = SolPush e.

(** [e] is the event that block 2 pushes for one of the post-transaction
    token balances of [tx]. *)
Definition isTokenLeg (accountAddress : string)
    (tx : ParsedTransactionWithMeta) (e : FormattedTransaction) : Prop :=
  exists m t post,
    meta tx = Some m /\ transaction tx = Some t /\ err m = None
    /\ In post (postTokensOf m)
    /\ tokenTransfer accountAddress t m (signatureOf t) (timeOf tx)
         (preTokensOf m) (postTokensOf m) post
       = Some e.

(** Some instruction of [tx], top-level or inner, is an spl-token
    [transfer] or [transferChecked]. *)
Definition hasSplTransfer (tx : ParsedTransactionWithMeta) : bool :=
  match meta tx, transaction tx with
  | Some m, Some t =>
      match find isSplTransfer (allInstructions t (Some m)) with
      | Some _ => true
      | None => false
      end
  | _, _ => false
  end.

(** [addressesPresent], for the body and the meta of [tx]. *)
Definition wellAddressed (accountAddress : string)
    (tx : ParsedTransactionWithMeta) : bool :=
  match meta tx, transaction tx with
  | Some m, Some t => addressesPresent accountAddress t m
  | _, _ => false
  end.

(** *** Sections *)

(** The labels of a list in the order in which they are first seen. *)
Definition firstSeen (labels : list string) : list string :=
  fold_left
    (fun seen k => if existsb (String.eqb k) seen then seen else seen ++ [k])
    labels [].

(** The events that carry the label [k], in the order of the list. *)
Definition select (k : string)
    (labelled : list (string * FormattedTransaction))
    : list FormattedTransaction :=
  map snd (filter (fun p => (fst p =? k)%string) labelled).

Section DateRuntime.

Variables getFullYear getMonth getDate : Date -> Z.
Variable toLocaleDateString : Date -> string.
Variable clock : nat -> Date.

(** Each event with its calendar-day label; [n] counts the
    [new Date()] evaluated before the event is reached. *)
Fixpoint labelled (today yesterday : Date) (n : nat)
    (transactions : list FormattedTransaction)
    : list (string * FormattedTransaction) :=
  match transactions with
  | [] => []
  | transaction :: rest =>
      match time transaction with
      | Some d =>
          (Grouping.sectionTitle getFullYear getMonth getDate
             toLocaleDateString today yesterday d, transaction)
          :: labelled today yesterday n rest
      | None =>
          (Grouping.sectionTitle getFullYear getMonth getDate
             toLocaleDateString today yesterday (clock n), transaction)
          :: labelled today yesterday (S n) rest
      end
  end.

End DateRuntime.

(** One step of the reduction, on an event already labelled. *)
Definition addTo (acc : Grouping.Groups)
    (p : string * FormattedTransaction) : Grouping.Groups :=
  let acc :=
    match Grouping.get acc (fst p) with
    | Some _ => acc
    | None => Grouping.set acc (fst p) []
    end in
  match Grouping.get acc (fst p) with
  | Some l => Grouping.set acc (fst p) (l ++ [snd p])
  | None => acc
  end.

(** [acc] holds the events of [l], by label. *)
Definition holds (acc : Grouping.Groups)
    (l : list (string * FormattedTransaction)) : Prop :=
  Grouping.keys acc = firstSeen (map fst l)
  /\ forall k,
       Grouping.get acc k
       = if existsb (String.eqb k) (map fst l)
         then Some (select k l) else None.

End Design.

(** ** Sample ledger records *)

Module Samples.

Import Parser.

Definition alice : string := "ALiCEwa11et".
Definition bob : string := "B0Bwa11et".
Definition carol : string := "CARo1wa11et".
Definition aliceUsdc : string := "ALiCEusdcAccount".
Definition bobUsdc : string := "B0BusdcAccount".

Definition balance (i : nat) (who : option string) (ui : Q)
    : TokenBalance :=
  {| accountIndex := i; mint := USDC_MINT; owner := who;
     uiTokenAmount := {| uiAmount := Some ui |} |}.

Definition systemTransfer (src dst : string) : Instruction :=
  ParsedInstruction "system"
    (Some {| ptype := "transfer";
             info := {| source := src; destination := dst;
                        authority := None |} |}).

Definition splTransfer (src dst auth : string) : Instruction :=
  ParsedInstruction "spl-token"
    (Some {| ptype := "transferChecked";
             info := {| source := src; destination := dst;
                        authority := Some auth |} |}).

Definition body (sig : string) (keys : list string)
    (ixs : list Instruction) : ParsedTransaction :=
  {| signatures := [sig];
     message := {| accountKeys := keys; instructions := ixs |} |}.

Definition succeeded (pre post : list Z) (preT postT : list TokenBalance)
    : ParsedTransactionMeta :=
  {| err := None; innerInstructions := None;
     preBalances := pre; postBalances := post;
     preTokenBalances := Some preT; postTokenBalances := Some postT |}.

Definition record (t : ParsedTransaction) (m : ParsedTransactionMeta)
    : ParsedTransactionWithMeta :=
  {| blockTime := Some 1709300000; meta := Some m; transaction := Some t |}.

(** Alice pays Bob 1.005 SOL. *)
Definition paymentBody : ParsedTransaction :=
  body "sigPayment" [alice; bob] [systemTransfer alice bob].
Definition paymentMeta : ParsedTransactionMeta :=
  succeeded [2000000000; 0] [994995000; 1005000000] [] [].
Definition txPayment := record paymentBody paymentMeta.

(** Alice receives 5 USDC from Bob and pays a fee of 3000 lamports. *)
Definition dustBody : ParsedTransaction :=
  body "sigDust" [alice; aliceUsdc; bobUsdc]
    [splTransfer bobUsdc aliceUsdc bob].
Definition dustMeta : ParsedTransactionMeta :=
  succeeded [10000; 2039280; 2039280] [7000; 2039280; 2039280]
    [balance 2 (Some bob) 9]
    [balance 1 (Some alice) 5; balance 2 (Some bob) 4].
Definition txDust := record dustBody dustMeta.

(** Alice's USDC balance grows by 7 with no spl-token transfer
    instruction in the transaction. *)
Definition mintBody : ParsedTransaction :=
  body "sigMint" [carol; aliceUsdc] [].
Definition mintMeta : ParsedTransactionMeta :=
  succeeded [50000; 2039280] [45000; 2039280]
    [] [balance 1 (Some alice) 7].
Definition txMint := record mintBody mintMeta.

(** Alice transfers SOL to herself, pays 10000 lamports of fees and, in
    the same transaction, receives 5 USDC from Bob. *)
Definition selfBody : ParsedTransaction :=
  body "sigSelf" [alice; aliceUsdc; bobUsdc]
    [systemTransfer alice alice; splTransfer bobUsdc aliceUsdc bob].
Definition selfMeta : ParsedTransactionMeta :=
  succeeded [1000000; 2039280; 2039280] [990000; 2039280; 2039280]
    [balance 2 (Some bob) 9]
    [balance 1 (Some alice) 5; balance 2 (Some bob) 4].
Definition txSelf := record selfBody selfMeta.

(** A failed transaction that carries balance changes. *)
Definition txFailed : ParsedTransactionWithMeta :=
  {| blockTime := Some 1709300000;
     meta :=
       Some {| err := Some (TxError "InsufficientFundsForFee");
               innerInstructions := None;
               preBalances := [2000000000; 0];
               postBalances := [994995000; 1005000000];
               preTokenBalances := None;
               postTokenBalances := None |};
     transaction :=
       Some {| signatures := ["sigFailed"];
               message :=
                 {| accountKeys := [alice; bob];
                    instructions := [systemTransfer alice bob] |} |} |}.

(** Alice loses 25000 lamports to a program; Bob and Carol gain 10000
    each. *)
Definition splitBody : ParsedTransaction :=
  body "sigSplit" [alice; bob; carol] [].
Definition splitMeta : ParsedTransactionMeta :=
  succeeded [100000; 0; 0] [75000; 10000; 10000] [] [].
Definition txSplit := record splitBody splitMeta.

(** Alice gains 20000 lamports; Bob and Carol lose 10000 each. *)
Definition poolBody : ParsedTransaction :=
  body "sigPool" [bob; alice; carol] [].
Definition poolMeta : ParsedTransactionMeta :=
  succeeded [50000; 0; 50000] [40000; 20000; 40000] [] [].
Definition txPool := record poolBody poolMeta.

(** The events the samples give rise to. *)
Definition paymentEvent : FormattedTransaction :=
  {| signature := Some "sigPayment"; type := sent; token := "SOL";
     amount := Qabs (inject_Z (-1005005000) / inject_Z LAMPORTS_PER_SOL);
     from := alice; to := bob; time := Some 1709300000000 |}.

Definition mintEvent : FormattedTransaction :=
  {| signature := Some "sigMint"; type := received; token := "USDC";
     amount := Qabs (7 - 0); from := external; to := external;
     time := Some 1709300000000 |}.

Definition selfUsdcEvent : FormattedTransaction :=
  {| signature := Some "sigSelf"; type := received; token := "USDC";
     amount := Qabs (5 - 0); from := bob; to := alice;
     time := Some 1709300000000 |}.

(** The screen shows the payment, the only transaction of the wallet on
    the ledger, and the cursor stands on it. *)
Definition shown : History.State :=
  {| History.transactions := [paymentEvent];
     History.loading := false;
     History.refreshing := false;
     History.loadingMore := false;
     History.error := None;
     History.lastSignature := Some "sigPayment";
     History.hasMore := true |}.

(** The RPC node is unreachable. *)
Definition unreachable (before : option string)
    : option (list FormattedTransaction) :=
  None.

(** The RPC node answers: the payment is the newest page, and nothing is
    older than it. *)
Definition ledger (before : option string)
    : option (list FormattedTransaction) :=
  match before with
  | None => Some [paymentEvent]
  | Some _ => Some []
  end.

(** A toy runtime for dates: days of 86400000 ms, labelled by a letter. *)
Definition dayOf (d : Date) : Z := d / 86400000.
Definition noField (d : Date) : Z := 0.
Definition setDay (d : Date) (day : Z) : Date := day * 86400000.
Definition dayLabel (d : Date) : string :=
  String (Ascii.ascii_of_nat (65 + Z.to_nat (dayOf d mod 26))) "".
Definition noon (n : nat) : Date := 10 * 86400000 + 43200000.

Definition at_time (sig : string) (d : Date) : FormattedTransaction :=
  {| signature := Some sig; type := received; token := "SOL";
     amount := 1; from := bob; to := alice; time := Some d |}.

(** The token-leg event of [txDust]. *)
Definition dustUsdcEvent : FormattedTransaction :=
  {| signature := Some "sigDust"; type := received; token := "USDC";
     amount := Qabs (5 - 0); from := bob; to := alice;
     time := Some 1709300000000 |}.

(** Alice moves 5 USDC from her token account to a second token account of
    hers; the fee of 5000 lamports is within the dust threshold. *)
Definition aliceVault : string := "ALiCEvau1tAccount".
Definition ownBody : ParsedTransaction :=
  body "sigOwn" [alice; aliceUsdc; aliceVault]
    [splTransfer aliceUsdc aliceVault alice].
Definition ownMeta : ParsedTransactionMeta :=
  succeeded [10000; 2039280; 2039280] [5000; 2039280; 2039280]
    [balance 1 (Some alice) 9; balance 2 (Some alice) 0]
    [balance 1 (Some alice) 4; balance 2 (Some alice) 5].
Definition txOwn := record ownBody ownMeta.

End Samples.


(** ** Friendly error messages *)

Module ErrorParser.

(** [s.includes(sub)]. *)
Fixpoint includes (s sub : string) : bool :=
  prefix sub s
  || match s with
     | EmptyString => false
     | String _ rest => includes rest sub
     end.

(** A caught value, as far as the parser reads it: [Nullish] is [undefined]
    or [null]; any other value has its [message], a string when present,
    and the string [toString()] gives. *)
Inductive Caught :=
| Nullish
| Value (message : option string) (toString : string).

(** [error?.message || error?.toString() || "Unknown error"]. *)
Definition messageOf (error : Caught) : string :=
  match error with
  | Nullish => "Unknown error"
  | Value message toString =>
      Js.or_else message (Js.or_else (Some toString) "Unknown error")
  end.

Definition getFriendlyErrorMessage (error : Caught) : string :=
  let message := messageOf error in
  if includes message "Transaction too large" || includes message "1232"
  then "Transaction data size exceeded. Please swipe again."
  else if includes message "Insufficient funds"
          || includes message "0x1"
          || includes message "Transfer: insufficient lamports"
  then "Insufficient balance to pay for gas fee."
  else if includes message "TransactionTooOld"
          || includes message "Transaction is too old"
          || includes message "6019"
          || includes message "0x1783"
          || includes message "Blockhash not found"
  then "Network timed out. Please swipe again."
  else if includes message "Instruction 0: custom program error: 0x2"
          || includes message "WALLET_CORRUPTED"
  then "Wallet Error: Please create a new wallet via Dashboard."
  else if includes message "User rejected"
          || includes message "Signature request denied"
  then "Transaction cancelled."
  else "Transaction failed. Please try again.".

End ErrorParser.

(** ** SolanaService.getTransactionsHistory *)

Module Service.

Import Parser.

(** The outcome of an awaited call. *)
Inductive Promise (A : Type) :=
| Fulfilled (a : A)
| Rejected (reason : string).
Arguments Fulfilled {A} a.
Arguments Rejected {A} reason.

(** The two methods of the RPC connection that the service calls.
    [getSignaturesForAddress address limit before] gives the [signature] of
    each entry of the answer, newest first; [getParsedTransaction] gives
    [null] for a signature the node does not know. *)
Record Connection := {
  getSignaturesForAddress :
    string -> nat -> option string -> Promise (list string);
  getParsedTransaction :
    string -> Promise (option ParsedTransactionWithMeta)
}.

(** [Promise.all]: the results in the order of the calls, or a rejection
    when one of the calls is rejected. *)
Fixpoint all {A : Type} (calls : list (Promise A)) : Promise (list A) :=
  match calls with
  | [] => Fulfilled []
  | Rejected reason :: _ => Rejected reason
  | Fulfilled a :: rest =>
      match all rest with
      | Fulfilled l => Fulfilled (a :: l)
      | Rejected reason => Rejected reason
      end
  end.

(** [txs.filter(tx => tx !== null)]. *)
Definition nonNull {A : Type} (txs : list (option A)) : list A :=
  flat_map (fun tx => match tx with Some tx => [tx] | None => [] end) txs.

Section PublicKeys.

(** [new PublicKey(walletAddress)] throws unless the address is a valid
    key. *)
Variable isPublicKey : string -> bool.

(** The whole body is inside [try]; the [catch] returns [null]. *)
Definition getTransactionsHistory (connection : Connection)
    (walletAddress : string) (isLastTransaction : bool)
    (lastSignature : option string) : option (list FormattedTransaction) :=
  let limit := if isLastTransaction then 1%nat else 20%nat in
  if negb (isPublicKey walletAddress) then None
  else
    match
      getSignaturesForAddress connection walletAddress limit lastSignature
    with
    | Rejected _ => None
    | Fulfilled signatures =>
        if (List.length signatures =? 0)%nat then Some []
        else
          match all (map (getParsedTransaction connection) signatures) with
          | Rejected _ => None
          | Fulfilled txs =>
              let validTxs := nonNull txs in
              Some (formatTransactions walletAddress validTxs)
          end
    end.

End PublicKeys.

End Service.

(** ** The useLastTransaction hook *)

Module LastTransaction.

Import Parser.

(** constants/Tokens.ts *)
Record TokenInfo := {
  symbol : string;
  name : string;
  priceKey : string;
  mint : option string;
  decimals : nat
}.

Definition SOL : TokenInfo :=
  {| symbol := "SOL"; name := "Solana"; priceKey := "solana";
     mint := None; decimals := 9 |}.

Definition USDC : TokenInfo :=
  {| symbol := "USDC"; name := "USD Coin"; priceKey := "usd-coin";
     mint := Some USDC_MINT; decimals := 6 |}.

(** [TOKENS[key]]; the keys the hook looks up are event tokens: "SOL",
    "USDC" or a mint address. *)
Definition TOKENS (key : string) : option TokenInfo :=
  if (key =? "SOL")%string then Some SOL
  else if (key =? "USDC")%string then Some USDC
  else None.

(** [s.toLowerCase()] on ASCII text. *)
Definition lowerChar (c : Ascii.ascii) : Ascii.ascii :=
  let n := Ascii.nat_of_ascii c in
  if ((65 <=? n) && (n <=? 90))%nat then Ascii.ascii_of_nat (n + 32) else c.

Fixpoint toLowerCase (s : string) : string :=
  match s with
  | EmptyString => EmptyString
  | String c rest => String (lowerChar c) (toLowerCase rest)
  end.

(** The [useState] cells of the hook. *)
Record State := {
  lastTransaction : option FormattedTransaction;
  lastTransactionTokenPrice : Q;
  isLoadTransaction : bool;
  error : option string
}.

(** The setters. *)
Definition setLastTransaction (v : option FormattedTransaction)
    (s : State) : State :=
  {| lastTransaction := v;
     lastTransactionTokenPrice := lastTransactionTokenPrice s;
     isLoadTransaction := isLoadTransaction s; error := error s |}.

Definition setLastTransactionTokenPrice (v : Q) (s : State) : State :=
  {| lastTransaction := lastTransaction s;
     lastTransactionTokenPrice := v;
     isLoadTransaction := isLoadTransaction s; error := error s |}.

Definition setIsLoadTransaction (v : bool) (s : State) : State :=
  {| lastTransaction := lastTransaction s;
     lastTransactionTokenPrice := lastTransactionTokenPrice s;
     isLoadTransaction := v; error := error s |}.

Definition setError (v : option string) (s : State) : State :=
  {| lastTransaction := lastTransaction s;
     lastTransactionTokenPrice := lastTransactionTokenPrice s;
     isLoadTransaction := isLoadTransaction s; error := v |}.

(** [TokensPriceResponse.prices]. *)
Definition Prices := list (string * Q).

Fixpoint priceOf (prices : Prices) (id : string) : option Q :=
  match prices with
  | [] => None
  | (k, v) :: rest => if (k =? id)%string then Some v else priceOf rest id
  end.

Section Collaborators.

(** [SolanaService.getTransactionsHistory(connection, wallet, true)] and
    [getTokensPrice(ids)], as awaited by the hook. *)
Variable getTransactionsHistory :
  string -> Service.Promise (option (list FormattedTransaction)).
Variable getTokensPrice :
  list string -> Service.Promise (option Prices).

(** The price looked up for the token of [transaction]; 0 when the token is
    not in [TOKENS], when the request fails, or when the answer lacks the
    price. *)
Definition priceFor (transaction : FormattedTransaction) : Q :=
  match TOKENS (token transaction) with
  | Some tokenInfo =>
      let apiId :=
        if (name tokenInfo =? "USD Coin")%string then "usd-coin"
        else toLowerCase (name tokenInfo) in
      match getTokensPrice [apiId] with
      | Service.Fulfilled (Some prices) =>
          match priceOf prices apiId with
          | Some p => p
          | None => 0%Q
          end
      | Service.Fulfilled None => 0%Q
      | Service.Rejected _ => 0%Q
      end
  | None => 0%Q
  end.

(** [fetchTransaction], for a hook called with [walletPubkey] and with or
    without a connection. *)
Definition fetchTransaction (walletPubkey : option string)
    (connected : bool) (s : State) : State :=
  match walletPubkey, connected with
  | Some wallet, true =>
      let s := setIsLoadTransaction true s in
      let s := setError None s in
      let s :=
        (* try *)
        match getTransactionsHistory wallet with
        | Service.Fulfilled None
        | Service.Fulfilled (Some []) =>
            setLastTransactionTokenPrice 0%Q (setLastTransaction None s)
        | Service.Fulfilled (Some (transaction :: _)) =>
            let price := priceFor transaction in
            setLastTransaction (Some transaction)
              (setLastTransactionTokenPrice price s)
        | Service.Rejected _ =>
            (* catch *)
            setLastTransaction None
              (setError (Some "Failed to load activity") s)
        end in
      (* finally *)
      setIsLoadTransaction false s
  | _, _ => setError None (setLastTransaction None s)
  end.

End Collaborators.

End LastTransaction.

(** ** timeAgo *)

Module FormatTime.

Import Parser.

(** [`${n}`] for an integer. *)
Definition show (n : Z) : string := NilZero.string_of_int (Z.to_int n).

Section Clock.

(** [new Date(timestamp).getTime()], [None] being [NaN], and
    [new Date().getTime()]. *)
Variable parse : string -> option Z.
Variable now : Z.

Definition timeAgo (timestamp : option string) : string :=
  match timestamp with
  | None => ""
  | Some timestamp =>
      if (timestamp =? "")%string then ""
      else
        match parse timestamp with
        | None => "Invalid date"
        | Some date =>
            let diff := (now - date) / 1000 in
            if diff <? 5 then "just now"
            else if diff <? 60 then show diff ++ " seconds ago"
            else if diff <? 3600 then show (diff / 60) ++ " minutes ago"
            else if diff <? 86400 then show (diff / 3600) ++ " hours ago"
            else if diff <? 2592000 then show (diff / 86400) ++ " days ago"
            else if diff <? 31536000
                 then show (diff / 2592000) ++ " months ago"
            else show (diff / 31536000) ++ " years ago"
        end
  end.

End Clock.

End FormatTime.

(** ** Further sample records *)

Module Cases.

Import Parser Samples.

(** Alice pays Bob 1 SOL and receives 5 USDC from him in the same
    transaction. *)
Definition tradeBody : ParsedTransaction :=
  body "sigTrade" [alice; bob; aliceUsdc; bobUsdc]
    [systemTransfer alice bob; splTransfer bobUsdc aliceUsdc bob].
Definition tradeMeta : ParsedTransactionMeta :=
  succeeded [3000000000; 0; 2039280; 2039280]
    [1999995000; 1000000000; 2039280; 2039280]
    [balance 3 (Some bob) 9]
    [balance 2 (Some alice) 5; balance 3 (Some bob) 4].
Definition txTrade := record tradeBody tradeMeta.

Definition tradeSolEvent : FormattedTransaction :=
  {| signature := Some "sigTrade"; type := sent; token := "SOL";
     amount := Qabs (inject_Z (-1000005000) / inject_Z LAMPORTS_PER_SOL);
     from := alice; to := bob; time := Some 1709300000000 |}.

Definition tradeUsdcEvent : FormattedTransaction :=
  {| signature := Some "sigTrade"; type := received; token := "USDC";
     amount := Qabs (5 - 0); from := bob; to := alice;
     time := Some 1709300000000 |}.

(** Carol pays Bob; Alice takes no part. *)
Definition otherBody : ParsedTransaction :=
  body "sigOther" [carol; bob] [systemTransfer carol bob].
Definition otherMeta : ParsedTransactionMeta :=
  succeeded [2000000000; 0] [994995000; 1005000000] [] [].
Definition txOther := record otherBody otherMeta.

(** A smart wallet: the top-level instruction is a call of the wallet
    program, the transfer from Alice to Bob is an inner instruction. *)
Definition cpiBody : ParsedTransaction :=
  body "sigCpi" [carol; alice; bob] [PartiallyDecodedInstruction].
Definition cpiMeta : ParsedTransactionMeta :=
  {| err := None;
     innerInstructions :=
       Some [{| index := 0%nat;
                inner_instructions := [systemTransfer alice bob] |}];
     preBalances := [100000; 2000000000; 0];
     postBalances := [95000; 1000000000; 1000000000];
     preTokenBalances := None; postTokenBalances := None |}.
Definition txCpi := record cpiBody cpiMeta.

(** Alice sends 5 USDC to a token account whose owner the balances do not
    give. *)
Definition vaultUsdc : string := "VAU1TusdcAccount".
Definition vaultBody : ParsedTransaction :=
  body "sigVault" [alice; aliceUsdc; vaultUsdc]
    [splTransfer aliceUsdc vaultUsdc alice].
Definition vaultPre : list TokenBalance :=
  [balance 1 (Some alice) 9; balance 2 None 0].
Definition vaultPost : list TokenBalance :=
  [balance 1 (Some alice) 4; balance 2 None 5].
Definition vaultMeta : ParsedTransactionMeta :=
  succeeded [10000; 2039280; 2039280] [5000; 2039280; 2039280]
    vaultPre vaultPost.
Definition txVault := record vaultBody vaultMeta.

(** Alice swaps with Bob: she sends 5 USDC and receives 3 units of another
    token; the fee of 5000 lamports is within the dust threshold. *)
Definition bonkMint : string := "B0NKmint".
Definition aliceBonk : string := "ALiCEbonkAccount".
Definition bobBonk : string := "B0BbonkAccount".
Definition bonk (i : nat) (who : option string) (ui : Q) : TokenBalance :=
  {| accountIndex := i; mint := bonkMint; owner := who;
     uiTokenAmount := {| uiAmount := Some ui |} |}.
Definition swapBody : ParsedTransaction :=
  body "sigSwap" [alice; aliceUsdc; bobUsdc; aliceBonk; bobBonk]
    [splTransfer aliceUsdc bobUsdc alice; splTransfer bobBonk aliceBonk bob].
Definition swapMeta : ParsedTransactionMeta :=
  succeeded [10000; 2039280; 2039280; 2039280; 2039280]
    [5000; 2039280; 2039280; 2039280; 2039280]
    [balance 1 (Some alice) 9; balance 2 (Some bob) 0;
     bonk 3 (Some alice) 0; bonk 4 (Some bob) 7]
    [balance 1 (Some alice) 4; balance 2 (Some bob) 5;
     bonk 3 (Some alice) 3; bonk 4 (Some bob) 4].
Definition txSwap := record swapBody swapMeta.

Definition swapUsdcEvent : FormattedTransaction :=
  {| signature := Some "sigSwap"; type := sent; token := "USDC";
     amount := Qabs (4 - 9); from := alice; to := bob;
     time := Some 1709300000000 |}.

Definition swapBonkEvent : FormattedTransaction :=
  {| signature := Some "sigSwap"; type := received; token := bonkMint;
     amount := Qabs (3 - 0); from := alice; to := bob;
     time := Some 1709300000000 |}.

(** Two pages of events for the toy runtime of [Samples]: the clock
    stands on day 10; the first page has events of days 10 and 7, the
    second page events of days 7 and 5 and one event without a time. *)
Definition untimed : FormattedTransaction :=
  {| signature := Some "s9"; type := received; token := "SOL";
     amount := 1; from := bob; to := alice; time := None |}.
Definition firstPage : list FormattedTransaction :=
  [at_time "s1" (10 * 86400000 + 60000); at_time "s2" (7 * 86400000 + 500)].
Definition secondPage : list FormattedTransaction :=
  [at_time "s3" (7 * 86400000); at_time "s4" (5 * 86400000); untimed].
Definition group : list FormattedTransaction
                   -> list Grouping.TransactionSection :=
  Grouping.groupTransactionsByDate noField noField dayOf setDay dayLabel
    noon.

(** A node that knows two pages of events of Alice: the trade, then the
    payment. *)
Definition twoPages (before : option string)
    : option (list FormattedTransaction) :=
  match before with
  | None => Some [tradeSolEvent; tradeUsdcEvent]
  | Some sig =>
      if (sig =? "sigTrade")%string then Some [paymentEvent] else Some []
  end.

(** A connection that knows three signatures of Alice: the trade, a
    signature whose transaction it cannot find, and the failed
    transaction. *)
Definition node : Service.Connection :=
  {| Service.getSignaturesForAddress :=
       fun address limit before =>
         match before with
         | None =>
             Service.Fulfilled
               (firstn limit ["sigTrade"; "sigLost"; "sigFailed"])
         | Some _ => Service.Fulfilled []
         end;
     Service.getParsedTransaction :=
       fun sig =>
         if (sig =? "sigTrade")%string
         then Service.Fulfilled (Some txTrade)
         else if (sig =? "sigFailed")%string
         then Service.Fulfilled (Some txFailed)
         else Service.Fulfilled None |}.

(** A connection whose newest page holds only the failed transaction. *)
Definition failedOnly : Service.Connection :=
  {| Service.getSignaturesForAddress :=
       fun address limit before => Service.Fulfilled ["sigFailed"];
     Service.getParsedTransaction :=
       fun sig => Service.Fulfilled (Some txFailed) |}.

(** A connection whose first call is rejected. *)
Definition offline : Service.Connection :=
  {| Service.getSignaturesForAddress :=
       fun address limit before => Service.Rejected "Network request failed";
     Service.getParsedTransaction :=
       fun sig => Service.Rejected "Network request failed" |}.

Definition anyKey (address : string) : bool := true.

End Cases.

(** * Properties *)

Import Parser Design.

(** ** formatTransactions as a concatenation *)

Lemma fold_push_flat_map (A : Type) (f : A -> option FormattedTransaction)
    (l : list A) (result : list FormattedTransaction) :
  fold_left (fun result x => push result (f x)) l result
  = result ++ flat_map (fun x => to_list (f x)) l.
Proof.
  revert result.
  induction l as [|x l IH]; intros result; simpl.
  - now rewrite app_nil_r.
  - rewrite IH. destruct (f x) as [e|]; simpl.
    + now rewrite <- app_assoc.
    + reflexivity.
Qed.

Lemma tokenTransfers_app a t m time result :
  tokenTransfers a t m time result = result ++ tokenLegs a t m time.
Proof. unfold tokenTransfers, tokenLegs. apply fold_push_flat_map. Qed.

Lemma formatTransaction_app a result tx :
  formatTransaction a result tx = result ++ eventsOf a tx.
Proof.
  unfold formatTransaction, eventsOf.
  destruct (meta tx) as [m|]; [|now rewrite app_nil_r].
  destruct (transaction tx) as [t|]; [|now rewrite app_nil_r].
  destruct (err m); [now rewrite app_nil_r|].
  destruct (solTransfer a t m (signatureOf t) (timeOf tx)).
  - now rewrite app_nil_r.
  - apply tokenTransfers_app.
  - rewrite tokenTransfers_app, <- app_assoc. reflexivity.
Qed.

Lemma fold_formatTransaction a txs result :
  fold_left (formatTransaction a) txs result
  = result ++ flat_map (eventsOf a) txs.
Proof.
  revert result.
  induction txs as [|tx txs IH]; intros result; simpl.
  - now rewrite app_nil_r.
  - rewrite IH, formatTransaction_app, <- app_assoc. reflexivity.
Qed.

Lemma formatTransactions_flat_map a txs :
  formatTransactions a txs = flat_map (eventsOf a) txs.
Proof. unfold formatTransactions. now rewrite fold_formatTransaction. Qed.

Lemma formatTransactions_app a txs1 txs2 :
  formatTransactions a (txs1 ++ txs2)
  = formatTransactions a txs1 ++ formatTransactions a txs2.
Proof.
  rewrite !formatTransactions_flat_map. apply flat_map_app.
Qed.

(** C10.  The output of [formatTransactions] is the concatenation, in the
    order of the input list, of the events of each transaction; the events
    of one transaction ([eventsOf]) are its native-leg event, when emitted,
    followed by its token-leg events in the order of the post-transaction
    token balances. *)
Theorem formatTransactions_concat (a : string)
    (txs : list ParsedTransactionWithMeta) :
  formatTransactions a txs = flat_map (eventsOf a) txs.
Proof.
  induction txs as [|tx txs IH] using rev_ind.
  - reflexivity.
  - rewrite formatTransactions_app, flat_map_app, IH. f_equal.
    unfold formatTransactions. simpl.
    rewrite formatTransaction_app, app_nil_r. reflexivity.
Qed.

(** ** Failed and incomplete transactions *)

(** C9.  A transaction whose [meta] or [transaction] is missing, or whose
    [meta.err] is set, contributes no event, whatever else it carries and
    wherever it stands in the input. *)
Theorem failed_transaction_no_event (a : string)
    (tx : ParsedTransactionWithMeta) :
  (meta tx = None \/ transaction tx = None
   \/ exists m, meta tx = Some m /\ err m <> None) ->
  formatTransactions a [tx] = []
  /\ forall before after,
       formatTransactions a (before ++ tx :: after)
       = formatTransactions a (before ++ after).
Proof.
  intros H.
  assert (E : formatTransactions a [tx] = []).
  { unfold formatTransactions; simpl. unfold formatTransaction.
    destruct H as [H | [H | [m [Hm He]]]].
    - now rewrite H.
    - rewrite H. now destruct (meta tx).
    - rewrite Hm. destruct (transaction tx); [|reflexivity].
      destruct (err m); [reflexivity | contradiction]. }
  split; [exact E|].
  intros before after.
  change (tx :: after) with ([tx] ++ after).
  rewrite !formatTransactions_app, E. reflexivity.
Qed.

Lemma failed_transaction_no_event_witness :
  formatTransactions Samples.alice [Samples.txFailed] = []
  /\ forall before after,
       formatTransactions Samples.alice (before ++ Samples.txFailed :: after)
       = formatTransactions Samples.alice (before ++ after).
Proof.
  apply (failed_transaction_no_event Samples.alice Samples.txFailed).
  right; right. eexists; split; [reflexivity | discriminate].
Defined.

(** ** Dust filtering *)

Lemma In_formatTransactions_single a tx e :
  In e (formatTransactions a [tx]) <-> In e (eventsOf a tx).
Proof.
  rewrite formatTransactions_flat_map; simpl. now rewrite app_nil_r.
Qed.

(** C6.  When the native balance delta [d] of the tracked address satisfies
    [|d| <= MIN_SOL_CHANGE], block 1 pushes nothing, so every event of the
    transaction is one of its token legs. *)
Theorem dust_native_leg_not_emitted (a : string)
    (tx : ParsedTransactionWithMeta) (m : ParsedTransactionMeta)
    (t : ParsedTransaction) (d : Z) :
  meta tx = Some m ->
  transaction tx = Some t ->
  nativeDelta a t m = Some d ->
  Z.abs d <= MIN_SOL_CHANGE ->
  (forall sig time, solTransfer a t m sig time = SolNothing)
  /\ (forall e, In e (formatTransactions a [tx]) ->
                In e (tokenLegs a t m (timeOf tx))).
Proof.
  intros Hm Ht Hd Hle.
  assert (Hsol : forall sig time, solTransfer a t m sig time = SolNothing).
  { intros sig time. unfold solTransfer. unfold nativeDelta in Hd.
    destruct (Js.indexOf (accountKeys (message t)) a) as [i|];
      [|reflexivity].
    injection Hd as Hd. rewrite Hd.
    destruct (Z.gtb_spec (Z.abs d) MIN_SOL_CHANGE); [lia | reflexivity]. }
  split; [exact Hsol|].
  intros e He. apply In_formatTransactions_single in He.
  unfold eventsOf in He. rewrite Hm, Ht in He.
  destruct (err m); [contradiction|].
  now rewrite Hsol in He.
Qed.

Lemma dust_native_leg_not_emitted_witness :
  (forall sig time,
      solTransfer Samples.alice Samples.dustBody Samples.dustMeta sig time
      = SolNothing)
  /\ (forall e,
        In e (formatTransactions Samples.alice [Samples.txDust]) ->
        In e (tokenLegs Samples.alice Samples.dustBody Samples.dustMeta
                (timeOf Samples.txDust))).
Proof.
  apply (dust_native_leg_not_emitted Samples.alice Samples.txDust
           Samples.dustMeta Samples.dustBody (-3000));
    try reflexivity.
  vm_compute; discriminate.
Defined.

(** ** The balance-delta fallback of extractSOLAddresses *)

Lemma scanSent_scanStep keys pre post my st i :
  scanSent keys pre post my st i = scanStep keys (gainOf pre post) my st i.
Proof. reflexivity. Qed.

Lemma scanReceived_scanStep keys pre post my st i :
  scanReceived keys pre post my st i
  = scanStep keys (lossOf pre post) my st i.
Proof.
  unfold scanReceived, scanStep, lossOf.
  destruct (i =? my)%nat; [reflexivity|].
  destruct (Js.sub_at post pre i) as [d|]; [|reflexivity].
  destruct (d <? 0); reflexivity.
Qed.

Lemma fold_left_ext_in (A B : Type) (f g : A -> B -> A) (l : list B) :
  (forall a b, f a b = g a b) ->
  forall a, fold_left f l a = fold_left g l a.
Proof.
  intros E. induction l as [|b l IH]; intros a; simpl.
  - reflexivity.
  - now rewrite E, IH.
Qed.

Section ScanInvariant.

Variable keys : list string.
Variable score : nat -> option Z.
Variable myIndex : nat.

Lemma scanned_0 : scanned keys score myIndex 0 (MIN_SOL_CHANGE, external).
Proof. left. split; [reflexivity|]. intros k w Hk. lia. Qed.

Lemma scanned_step n st :
  scanned keys score myIndex n st ->
  scanned keys score myIndex (S n) (scanStep keys score myIndex st n).
Proof.
  intros Inv. unfold scanStep.
  destruct (Nat.eqb_spec n myIndex) as [->|Hn].
  - (* the tracked account is skipped *)
    destruct Inv as [[E All] | (j & Hj & Hjm & Sj & Gt & Key & All & Bef)].
    + left. split; [exact E|]. intros k w Hk Hkm. apply All; lia.
    + right. exists j. repeat split; try assumption; try lia.
      intros k w Hk Hkm. apply All; lia.
  - destruct (score n) as [v|] eqn:Sn.
    + destruct (Z.gtb_spec v (fst st)) as [Hv|Hv].
      * (* strict improvement: account [n] becomes the best *)
        right. exists n. simpl.
        assert (Below : forall k w, (k < n)%nat -> k <> myIndex ->
                                    score k = Some w -> w < v).
        { intros k w Hk Hkm Sk.
          destruct Inv as [[E All] | (j & _ & _ & _ & _ & _ & All & _)].
          - subst st; simpl in Hv. specialize (All k w Hk Hkm Sk). lia.
          - specialize (All k w Hk Hkm Sk). lia. }
        assert (MIN_SOL_CHANGE < v).
        { destruct Inv as [[E _] | (j & _ & _ & _ & Gt & _)].
          - subst st; simpl in Hv. lia.
          - lia. }
        repeat split; try assumption; try lia.
        intros k w Hk Hkm Sk.
        destruct (Nat.eq_dec k n) as [->|Hkn].
        -- rewrite Sn in Sk. injection Sk as <-. lia.
        -- assert (w < v) by (apply (Below k); [lia|assumption..]). lia.
      * (* no improvement: the state is kept, ties included *)
        destruct Inv as [[E All] | (j & Hj & Hjm & Sj & Gt & Key & All & Bef)].
        -- left. split; [exact E|]. intros k w Hk Hkm Sk.
           destruct (Nat.eq_dec k n) as [->|Hkn].
           ++ rewrite Sn in Sk. injection Sk as <-.
              subst st; simpl in Hv. lia.
           ++ apply (All k); [lia|assumption..].
        -- right. exists j. repeat split; try assumption; try lia.
           intros k w Hk Hkm Sk.
           destruct (Nat.eq_dec k n) as [->|Hkn].
           ++ rewrite Sn in Sk. injection Sk as <-. lia.
           ++ apply (All k); [lia|assumption..].
    + (* NaN: every comparison fails *)
      destruct Inv as [[E All] | (j & Hj & Hjm & Sj & Gt & Key & All & Bef)].
      * left. split; [exact E|]. intros k w Hk Hkm Sk.
        destruct (Nat.eq_dec k n) as [->|Hkn]; [congruence|].
        apply (All k); [lia|assumption..].
      * right. exists j. repeat split; try assumption; try lia.
        intros k w Hk Hkm Sk.
        destruct (Nat.eq_dec k n) as [->|Hkn]; [congruence|].
        apply (All k); [lia|assumption..].
Qed.

Lemma scanned_fold n :
  scanned keys score myIndex n
    (fold_left (scanStep keys score myIndex) (seq 0 n)
               (MIN_SOL_CHANGE, external)).
Proof.
  induction n as [|n IH].
  - apply scanned_0.
  - rewrite seq_S, fold_left_app. simpl. now apply scanned_step.
Qed.

Lemma scanned_counterparty st :
  scanned keys score myIndex (List.length keys) st ->
  counterpartyBy score keys myIndex (snd st).
Proof.
  intros [[E All] | (j & Hj & Hjm & Sj & Gt & Key & All & Bef)].
  - left. subst st. split; [reflexivity | exact All].
  - right. exists j. split.
    + repeat split; try assumption. exists (fst st). auto.
    + rewrite Key. now apply nth_error_nth'.
Qed.

End ScanInvariant.

(** C7.  Without a system transfer naming the tracked address, and with the
    tracked address among the account keys: when its delta [d] is negative
    the result is [{from: tracked, to: c}], [c] being the key of the first
    account, in key order, with the largest delta above the dust threshold,
    else [external]; when [d] is non-negative the result is
    [{from: c, to: tracked}], [c] being the key of the first account with
    the largest-magnitude negative delta above the threshold, else
    [external]. *)
Theorem balance_fallback_counterparty (t : ParsedTransaction)
    (m : ParsedTransactionMeta) (a : string) (myIndex : nat) (d : Z) :
  find (isSystemTransferOf a) (allInstructions t (Some m)) = None ->
  Js.indexOf (accountKeys (message t)) a = Some myIndex ->
  Js.sub_at (postBalances m) (preBalances m) myIndex = Some d ->
  (d < 0 ->
   exists c,
     extractSOLAddresses t (Some m) a
     = Some {| addr_from := a; addr_to := c |}
     /\ counterpartyBy (gainOf (preBalances m) (postBalances m))
          (accountKeys (message t)) myIndex c)
  /\ (0 <= d ->
      exists c,
        extractSOLAddresses t (Some m) a
        = Some {| addr_from := c; addr_to := a |}
        /\ counterpartyBy (lossOf (preBalances m) (postBalances m))
             (accountKeys (message t)) myIndex c).
Proof.
  intros Hfind Hidx Hd.
  unfold extractSOLAddresses. rewrite Hfind.
  unfold balanceFallback. rewrite Hidx, Hd.
  split; intros Hsign.
  - destruct (Z.ltb_spec d 0); [|lia].
    eexists. split; [reflexivity|].
    rewrite (fold_left_ext_in _ _ _ _ _ (scanSent_scanStep _ _ _ _)).
    apply scanned_counterparty, scanned_fold.
  - destruct (Z.ltb_spec d 0); [lia|].
    eexists. split; [reflexivity|].
    rewrite (fold_left_ext_in _ _ _ _ _ (scanReceived_scanStep _ _ _ _)).
    apply scanned_counterparty, scanned_fold.
Qed.

Example split_first_of_equal_gains :
  extractSOLAddresses Samples.splitBody (Some Samples.splitMeta)
    Samples.alice
  = Some {| addr_from := Samples.alice; addr_to := Samples.bob |}.
Proof. reflexivity. Qed.

Example pool_first_of_equal_losses :
  extractSOLAddresses Samples.poolBody (Some Samples.poolMeta)
    Samples.alice
  = Some {| addr_from := Samples.bob; addr_to := Samples.alice |}.
Proof. reflexivity. Qed.

Lemma balance_fallback_counterparty_witness :
  (exists c,
      extractSOLAddresses Samples.splitBody (Some Samples.splitMeta)
        Samples.alice
      = Some {| addr_from := Samples.alice; addr_to := c |}
      /\ counterpartyBy
           (gainOf (preBalances Samples.splitMeta)
                   (postBalances Samples.splitMeta))
           (accountKeys (message Samples.splitBody)) 0 c)
  /\ (exists c,
        extractSOLAddresses Samples.poolBody (Some Samples.poolMeta)
          Samples.alice
        = Some {| addr_from := c; addr_to := Samples.alice |}
        /\ counterpartyBy
             (lossOf (preBalances Samples.poolMeta)
                     (postBalances Samples.poolMeta))
             (accountKeys (message Samples.poolBody)) 1 c).
Proof.
  split.
  - apply (proj1 (balance_fallback_counterparty Samples.splitBody
                    Samples.splitMeta Samples.alice 0 (-25000)
                    eq_refl eq_refl eq_refl)).
    lia.
  - apply (proj2 (balance_fallback_counterparty Samples.poolBody
                    Samples.poolMeta Samples.alice 1 20000
                    eq_refl eq_refl eq_refl)).
    lia.
Defined.

(** ** The two sides of an event *)

Lemma strict_eq_true a b : Js.strict_eq a b = true <-> a = b.
Proof.
  destruct a as [x|], b as [y|]; simpl; split; intros H;
    try discriminate; try reflexivity.
  - apply String.eqb_eq in H. now subst.
  - injection H as ->. apply String.eqb_refl.
Qed.

Lemma strict_eq_false a b : Js.strict_eq a b = false <-> a <> b.
Proof.
  rewrite <- strict_eq_true. destruct (Js.strict_eq a b); split; congruence.
Qed.

Lemma nonEmpty_true s : nonEmpty s = true <-> s <> "".
Proof.
  unfold nonEmpty. destruct (String.eqb_spec s ""); simpl; split;
    congruence.
Qed.

Lemma or_else_some s b : s <> "" -> Js.or_else (Some s) b = s.
Proof.
  intros H. simpl. destruct (String.eqb_spec s ""); congruence.
Qed.

Lemma external_nonEmpty : external <> "".
Proof. discriminate. Qed.

Lemma isSystemTransferOf_inv a ix :
  isSystemTransferOf a ix = true ->
  exists program p,
    ix = ParsedInstruction program (Some p)
    /\ (source (info p) = a \/ destination (info p) = a).
Proof.
  destruct ix as [program [p|]|]; simpl; try discriminate.
  destruct ((program =? "system")%string && (ptype p =? "transfer")%string);
    [|discriminate].
  intros H. exists program, p. split; [reflexivity|].
  apply orb_true_iff in H. now rewrite !String.eqb_eq in H.
Qed.

Lemma isSplTransfer_inv ix :
  isSplTransfer ix = true ->
  exists program p, ix = ParsedInstruction program (Some p).
Proof.
  destruct ix as [program [p|]|]; simpl; try discriminate. eauto.
Qed.

Lemma balanceFallback_sides t m a :
  let r := balanceFallback t m a in
  (addr_from r = a \/ addr_to r = a)
  \/ (addr_from r = external /\ addr_to r = external).
Proof.
  unfold balanceFallback.
  destruct (Js.indexOf (accountKeys (message t)) a); simpl; [|now right].
  match goal with |- context [if ?c then _ else _] => destruct c end;
    simpl; auto.
Qed.

Lemma extractSOLAddresses_sides t m a :
  exists r,
    extractSOLAddresses t m a = Some r
    /\ ((addr_from r = a \/ addr_to r = a)
        \/ (addr_from r = external /\ addr_to r = external)).
Proof.
  unfold extractSOLAddresses.
  destruct (find (isSystemTransferOf a) (allInstructions t m)) as [ix|] eqn:F.
  - apply find_some in F. destruct F as [_ F].
    apply isSystemTransferOf_inv in F.
    destruct F as (program & p & -> & Side).
    eexists; split; [reflexivity|]. simpl. now left.
  - eexists; split; [reflexivity|]. apply balanceFallback_sides.
Qed.

Lemma scan_key keys score my n st :
  (n <= List.length keys)%nat ->
  scanned keys score my n st ->
  snd st = external \/ In (snd st) keys.
Proof.
  intros Hn [[-> _] | (j & Hj & _ & _ & _ & Key & _)].
  - now left.
  - right. rewrite Key. apply nth_In. lia.
Qed.

Lemma balanceFallback_nonEmpty t m a :
  a <> "" ->
  addressesPresent a t m = true ->
  let r := balanceFallback t (Some m) a in
  addr_from r <> "" /\ addr_to r <> "".
Proof.
  intros Ha. unfold addressesPresent. rewrite !andb_true_iff.
  intros [Hkeys _]. rewrite forallb_forall in Hkeys.
  assert (K : forall st : Z * string,
             snd st = external \/ In (snd st) (accountKeys (message t)) ->
             snd st <> "").
  { intros st [-> | Hin]; [apply external_nonEmpty|].
    now apply nonEmpty_true, Hkeys. }
  unfold balanceFallback.
  destruct (Js.indexOf (accountKeys (message t)) a) as [i|]; simpl;
    [|split; apply external_nonEmpty].
  match goal with |- context [if ?c then _ else _] => destruct c end;
    simpl; (split; [|]); try assumption; apply K.
  - rewrite (fold_left_ext_in _ _ _ _ _ (scanSent_scanStep _ _ _ _)).
    eapply scan_key; [reflexivity | apply scanned_fold].
  - rewrite (fold_left_ext_in _ _ _ _ _ (scanReceived_scanStep _ _ _ _)).
    eapply scan_key; [reflexivity | apply scanned_fold].
Qed.

Lemma extractSOLAddresses_nonEmpty t m a r :
  a <> "" ->
  addressesPresent a t m = true ->
  extractSOLAddresses t (Some m) a = Some r ->
  addr_from r <> "" /\ addr_to r <> "".
Proof.
  intros Ha Hwf. unfold extractSOLAddresses.
  destruct (find (isSystemTransferOf a) (allInstructions t (Some m)))
    as [ix|] eqn:F.
  - apply find_some in F. destruct F as [Hin F].
    destruct (isSystemTransferOf_inv _ _ F) as (program & p & -> & _).
    intros [= <-]. simpl.
    unfold addressesPresent in Hwf. rewrite !andb_true_iff in Hwf.
    destruct Hwf as [_ Hix]. rewrite forallb_forall in Hix.
    specialize (Hix _ Hin). cbv beta in Hix. rewrite F in Hix.
    cbn [negb orb] in Hix.
    apply andb_true_iff in Hix. now rewrite !nonEmpty_true in Hix.
  - intros [= <-]. now apply balanceFallback_nonEmpty.
Qed.

Lemma solTransfer_push a t m sig tm e :
  solTransfer a t m sig tm = SolPush e ->
  exists r fallbackFrom fallbackTo,
    extractSOLAddresses t (Some m) a = Some r
    /\ addr_from r <> addr_to r
    /\ from e = Js.or_else (Some (addr_from r)) fallbackFrom
    /\ to e = Js.or_else (Some (addr_to r)) fallbackTo
    /\ signature e = sig /\ time e = tm.
Proof.
  unfold solTransfer.
  destruct (Js.indexOf (accountKeys (message t)) a) as [i|]; [|discriminate].
  destruct (Z.abs _ >? MIN_SOL_CHANGE); [|discriminate].
  destruct (extractSOLAddresses_sides t (Some m) a) as (r & -> & _).
  simpl option_map.
  destruct (Js.strict_eq (Some (addr_from r)) (Some (addr_to r))) eqn:E;
    [discriminate|].
  apply strict_eq_false in E.
  intros [= <-]. exists r. do 2 eexists.
  repeat split; try reflexivity. congruence.
Qed.

Lemma or_else_nonEmpty x b : b <> "" -> Js.or_else x b <> "".
Proof.
  intros Hb. destruct x as [s|]; simpl; [|exact Hb].
  destruct (String.eqb_spec s ""); assumption.
Qed.

Lemma extractTokenAddresses_sides t m a idx preT postT :
  a <> "" ->
  exists r,
    extractTokenAddresses t (Some m) a idx preT postT = Some r
    /\ addr_from r <> "" /\ addr_to r <> ""
    /\ match find isSplTransfer (allInstructions t (Some m)) with
       | Some _ => addr_from r = a \/ addr_to r = a
       | None => addr_from r = external /\ addr_to r = external
       end.
Proof.
  intros Ha. unfold extractTokenAddresses.
  destruct (find isSplTransfer (allInstructions t (Some m))) as [ix|] eqn:F.
  - apply find_some in F. destruct F as [_ F].
    apply isSplTransfer_inv in F. destruct F as (program & p & ->).
    match goal with |- context [if ?c then _ else _] => destruct c end;
      eexists; (split; [reflexivity|]); cbn [addr_from addr_to];
      repeat split; auto;
      apply or_else_nonEmpty, or_else_nonEmpty, external_nonEmpty.
  - eexists; split; [reflexivity|]. simpl.
    repeat split; apply external_nonEmpty.
Qed.

Lemma tokenTransfer_some a t m sig tm preT postT post e :
  tokenTransfer a t m sig tm preT postT post = Some e ->
  owner post = Some a
  /\ exists r fallbackFrom fallbackTo,
       extractTokenAddresses t (Some m) a (accountIndex post) preT postT
       = Some r
       /\ from e = Js.or_else (Some (addr_from r)) fallbackFrom
       /\ to e = Js.or_else (Some (addr_to r)) fallbackTo
       /\ signature e = sig /\ time e = tm.
Proof.
  unfold tokenTransfer.
  destruct (Js.strict_eq (owner post) (Some a)) eqn:Own; simpl;
    [|discriminate].
  apply strict_eq_true in Own.
  match goal with |- context [Qeq_bool ?x ?y] => destruct (Qeq_bool x y) end;
    [discriminate|].
  destruct (extractTokenAddresses t (Some m) a (accountIndex post) preT postT)
    as [r|] eqn:E.
  - intros [= <-]. split; [exact Own|]. exists r. do 2 eexists.
    repeat split; reflexivity.
  - exfalso. unfold extractTokenAddresses in E.
    repeat match type of E with
           | context [match ?x with _ => _ end] => destruct x
           end; discriminate.
Qed.

Lemma event_origin a txs e :
  In e (formatTransactions a txs) ->
  exists tx, In tx txs /\ (isNativeLeg a tx e \/ isTokenLeg a tx e).
Proof.
  rewrite formatTransactions_flat_map, in_flat_map.
  intros (tx & Htx & He). exists tx. split; [exact Htx|].
  unfold eventsOf in He.
  destruct (meta tx) as [m|] eqn:Hm; [|contradiction].
  destruct (transaction tx) as [t|] eqn:Ht; [|contradiction].
  destruct (err m) eqn:Herr; [contradiction|].
  assert (Tok : In e (tokenLegs a t m (timeOf tx)) -> isTokenLeg a tx e).
  { unfold tokenLegs. rewrite in_flat_map. intros (post & Hpost & Hin).
    exists m, t, post. repeat split; try assumption.
    destruct (tokenTransfer _ _ _ _ _ _ _ post) as [e'|];
      simpl in Hin; [|contradiction].
    destruct Hin as [->|[]]. reflexivity. }
  destruct (solTransfer a t m (signatureOf t) (timeOf tx)) as [| |e0] eqn:Sol.
  - contradiction.
  - right. now apply Tok.
  - destruct He as [<-|He].
    + left. exists m, t. repeat split; assumption.
    + right. now apply Tok.
Qed.

(** C1, as amended.  Every event of [formatTransactions], for a non-empty
    tracked address, is a native leg or a token leg of one of the input
    transactions.  A native-leg event has exactly one of [from] and [to]
    equal to the tracked address, when the account keys and the source and
    destination of the system transfers naming the tracked address are
    non-empty strings.  A token-leg event of a transaction that holds an
    spl-token transfer instruction has exactly one of them equal to the
    tracked address whenever its [from] and [to] differ.  A token-leg
    event of a transaction that holds no such instruction is the exception:
    both its sides are [external]. *)
Theorem event_sides (a : string) (txs : list ParsedTransactionWithMeta)
    (e : FormattedTransaction) :
  a <> "" ->
  In e (formatTransactions a txs) ->
  exists tx,
    In tx txs
    /\ ((isNativeLeg a tx e
         /\ (wellAddressed a tx = true -> oneSided a e))
        \/ (isTokenLeg a tx e
            /\ if hasSplTransfer tx
               then from e <> to e -> oneSided a e
               else from e = external /\ to e = external)).
Proof.
  intros Ha He. apply event_origin in He.
  destruct He as (tx & Htx & [Nat | Tok]); exists tx; (split; [exact Htx|]).
  - left. split; [exact Nat|].
    destruct Nat as (m & t & Hm & Ht & _ & Sol).
    unfold wellAddressed. rewrite Hm, Ht. intros Wf.
    apply solTransfer_push in Sol.
    destruct Sol as (r & fF & fT & Er & Neq & HF & HT & _).
    destruct (extractSOLAddresses_nonEmpty _ _ _ _ Ha Wf Er) as [NF NT].
    rewrite (or_else_some _ _ NF) in HF.
    rewrite (or_else_some _ _ NT) in HT.
    destruct (extractSOLAddresses_sides t (Some m) a) as (r' & Er' & Side).
    rewrite Er in Er'. injection Er' as <-.
    unfold oneSided. rewrite HF, HT.
    destruct Side as [[F | T] | [F T]].
    + left. split; [exact F | congruence].
    + right. split; [congruence | exact T].
    + congruence.
  - right. split; [exact Tok|].
    destruct Tok as (m & t & post & Hm & Ht & _ & _ & Tr).
    unfold hasSplTransfer. rewrite Hm, Ht.
    apply tokenTransfer_some in Tr.
    destruct Tr as (_ & r & fF & fT & Er & HF & HT & _).
    destruct (extractTokenAddresses_sides t m a (accountIndex post)
                (preTokensOf m) (postTokensOf m) Ha)
      as (r' & Er' & NF & NT & Side).
    rewrite Er in Er'. injection Er' as <-.
    rewrite (or_else_some _ _ NF) in HF.
    rewrite (or_else_some _ _ NT) in HT.
    unfold oneSided. rewrite HF, HT.
    destruct (find isSplTransfer (allInstructions t (Some m)));
      [|exact Side].
    intros Neq. destruct Side as [F | T].
    + left. split; [exact F | congruence].
    + right. split; [congruence | exact T].
Qed.

Lemma event_sides_witness :
  exists tx,
    In tx [Samples.txPayment; Samples.txDust]
    /\ ((isNativeLeg Samples.alice tx Samples.dustUsdcEvent
         /\ (wellAddressed Samples.alice tx = true ->
             oneSided Samples.alice Samples.dustUsdcEvent))
        \/ (isTokenLeg Samples.alice tx Samples.dustUsdcEvent
            /\ if hasSplTransfer tx
               then from Samples.dustUsdcEvent <> to Samples.dustUsdcEvent ->
                    oneSided Samples.alice Samples.dustUsdcEvent
               else from Samples.dustUsdcEvent = external
                    /\ to Samples.dustUsdcEvent = external)).
Proof.
  apply (event_sides Samples.alice [Samples.txPayment; Samples.txDust]
           Samples.dustUsdcEvent).
  - discriminate.
  - vm_compute. right. left. reflexivity.
Defined.

(** On the samples: the native leg of the payment and the token leg of
    [txDust] have exactly one side equal to the tracked address. *)
Example payment_is_one_sided :
  wellAddressed Samples.alice Samples.txPayment = true
  /\ oneSided Samples.alice Samples.paymentEvent
  /\ oneSided Samples.alice Samples.dustUsdcEvent.
Proof.
  split; [reflexivity|].
  split; [left | right]; split; (reflexivity || discriminate).
Qed.

(** The token balance of the tracked wallet grows with no spl-token
    transfer instruction: the one event has neither side equal to the
    tracked address. *)
Lemma event_sides_counterexample :
  formatTransactions Samples.alice [Samples.txMint] = [Samples.mintEvent]
  /\ from Samples.mintEvent <> Samples.alice
  /\ to Samples.mintEvent <> Samples.alice.
Proof.
  split; [reflexivity|]. split; discriminate.
Qed.

(** ** Self-transfers *)

Lemma Qabs_zero_bool (d : Q) : Qeq_bool (Qabs d) 0 = Qeq_bool d 0.
Proof.
  destruct d as [n p]. unfold Qeq_bool, Qabs; simpl.
  destruct (Z.eqb_spec (Z.abs n * 1) 0), (Z.eqb_spec (n * 1) 0);
    try reflexivity; lia.
Qed.

(** C2, as amended.  When the native resolution yields a pair with [from]
    equal to [to], block 1 pushes no event.  The fallback of the token
    resolution is the exception: for a balance entry of the tracked wallet
    with a non-zero delta, in a transaction without spl-token transfer
    instruction, the resolution is [{external, external}] and block 2
    pushes an event with both sides [external]. *)
Theorem self_transfer_elimination (a : string) (t : ParsedTransaction)
    (m : ParsedTransactionMeta) (sig : option string) (tm : option Date) :
  (forall r,
      extractSOLAddresses t (Some m) a = Some r ->
      addr_from r = addr_to r ->
      forall e, solTransfer a t m sig tm <> SolPush e)
  /\ (forall post,
        find isSplTransfer (allInstructions t (Some m)) = None ->
        owner post = Some a ->
        ~ (tokenDelta m post == 0)%Q ->
        extractTokenAddresses t (Some m) a (accountIndex post)
          (preTokensOf m) (postTokensOf m)
        = Some {| addr_from := external; addr_to := external |}
        /\ exists e,
             tokenTransfer a t m sig tm (preTokensOf m) (postTokensOf m)
               post = Some e
             /\ from e = external /\ to e = external).
Proof.
  split.
  - intros r Er Eq e Sol. apply solTransfer_push in Sol.
    destruct Sol as (r' & _ & _ & Er' & Neq & _).
    rewrite Er in Er'. injection Er' as <-. contradiction.
  - intros post NoIx Own NonZero.
    assert (Er : extractTokenAddresses t (Some m) a (accountIndex post)
                   (preTokensOf m) (postTokensOf m)
                 = Some {| addr_from := external; addr_to := external |}).
    { unfold extractTokenAddresses. now rewrite NoIx. }
    split; [exact Er|].
    unfold tokenTransfer. rewrite Er.
    replace (Js.strict_eq (owner post) (Some a)) with true
      by (symmetry; now apply strict_eq_true).
    cbn [negb]. fold (tokenDelta m post). rewrite Qabs_zero_bool.
    destruct (Qeq_bool (tokenDelta m post) 0) eqn:Z.
    + apply Qeq_bool_iff in Z. contradiction.
    + eexists. split; [reflexivity|]. split; reflexivity.
Qed.

Lemma self_transfer_elimination_witness :
  (forall e,
      solTransfer Samples.alice Samples.selfBody Samples.selfMeta
        (Some "sigSelf") None <> SolPush e)
  /\ exists e,
       tokenTransfer Samples.alice Samples.mintBody Samples.mintMeta
         (Some "sigMint") None (preTokensOf Samples.mintMeta)
         (postTokensOf Samples.mintMeta)
         (Samples.balance 1 (Some Samples.alice) 7) = Some e
       /\ from e = external /\ to e = external.
Proof.
  split.
  - apply (proj1 (self_transfer_elimination Samples.alice Samples.selfBody
                    Samples.selfMeta (Some "sigSelf") None)
             {| addr_from := Samples.alice; addr_to := Samples.alice |});
      reflexivity.
  - apply (proj2 (self_transfer_elimination Samples.alice Samples.mintBody
                    Samples.mintMeta (Some "sigMint") None)
             (Samples.balance 1 (Some Samples.alice) 7));
      [reflexivity | reflexivity | vm_compute; discriminate].
Defined.

(** The token resolution of the sample yields [from] equal to [to], and
    the leg is emitted. *)
Lemma self_transfer_elimination_counterexample :
  extractTokenAddresses Samples.mintBody (Some Samples.mintMeta)
    Samples.alice 1 (preTokensOf Samples.mintMeta)
    (postTokensOf Samples.mintMeta)
  = Some {| addr_from := external; addr_to := external |}
  /\ formatTransactions Samples.alice [Samples.txMint]
     = [Samples.mintEvent]
  /\ from Samples.mintEvent = to Samples.mintEvent.
Proof. repeat split; reflexivity. Qed.

(** Block 1 drops a native pair with [from] equal to [to]; block 2 does
    not make the test.  On [txOwn], a transfer between two token accounts
    of the tracked wallet is resolved to the pair alice, alice, and both
    balance entries give an event with that pair. *)
Example own_accounts_transfer_is_emitted :
  extractTokenAddresses Samples.ownBody (Some Samples.ownMeta) Samples.alice
    1 (preTokensOf Samples.ownMeta) (postTokensOf Samples.ownMeta)
  = Some {| addr_from := Samples.alice; addr_to := Samples.alice |}
  /\ map (fun e => (type e, from e, to e))
         (formatTransactions Samples.alice [Samples.txOwn])
     = [(sent, Samples.alice, Samples.alice);
        (received, Samples.alice, Samples.alice)].
Proof. split; reflexivity. Qed.

(** ** Legs of one transaction *)

(** X6.  All the events of one transaction carry its first signature and
    its block time. *)
Lemma events_share_signature_and_time a tx t e :
  transaction tx = Some t ->
  In e (formatTransactions a [tx]) ->
  signature e = signatureOf t /\ time e = timeOf tx.
Proof.
  intros Ht He. apply event_origin in He.
  destruct He as (tx' & [<-|[]] & [Nat | Tok]).
  - destruct Nat as (m & t' & _ & Ht' & _ & Sol).
    rewrite Ht in Ht'. injection Ht' as <-.
    apply solTransfer_push in Sol.
    destruct Sol as (_ & _ & _ & _ & _ & _ & _ & S & T). now split.
  - destruct Tok as (m & t' & post & _ & Ht' & _ & _ & Tr).
    rewrite Ht in Ht'. injection Ht' as <-.
    apply tokenTransfer_some in Tr.
    destruct Tr as (_ & _ & _ & _ & _ & _ & _ & S & T). now split.
Qed.

(** X7.  When block 1 pushes the native-leg event of a transaction that
    succeeded, the events of the transaction are that event followed by
    all its token legs. *)
Lemma legs_coexist a tx m t e :
  meta tx = Some m -> transaction tx = Some t -> err m = None ->
  solTransfer a t m (signatureOf t) (timeOf tx) = SolPush e ->
  formatTransactions a [tx] = e :: tokenLegs a t m (timeOf tx).
Proof.
  intros Hm Ht He Sol. rewrite formatTransactions_flat_map. simpl.
  rewrite app_nil_r. unfold eventsOf. now rewrite Hm, Ht, He, Sol.
Qed.

(** C3, on the sample [txSelf].  The native delta of the tracked address is
    -10000 lamports, above the dust threshold, and the USDC entry of the
    tracked wallet has a non-zero delta, for which block 2 would push an
    event; the native leg is a self-transfer, its [continue] ends the
    iteration, and the transaction yields no event at all. *)
Theorem self_transfer_suppresses_token_legs :
  nativeDelta Samples.alice Samples.selfBody Samples.selfMeta
  = Some (-10000)
  /\ tokenLegs Samples.alice Samples.selfBody Samples.selfMeta
       (timeOf Samples.txSelf)
     = [Samples.selfUsdcEvent]
  /\ solTransfer Samples.alice Samples.selfBody Samples.selfMeta
       (signatureOf Samples.selfBody) (timeOf Samples.txSelf)
     = SolContinue
  /\ formatTransactions Samples.alice [Samples.txSelf] = [].
Proof. repeat split; reflexivity. Qed.

(** ** Grouping by calendar day *)

Lemma get_set_same acc k v : Grouping.get (Grouping.set acc k v) k = Some v.
Proof.
  induction acc as [|[k' v'] acc IH]; simpl.
  - now rewrite String.eqb_refl.
  - destruct (String.eqb_spec k' k) as [->|Hk]; simpl.
    + now rewrite String.eqb_refl.
    + destruct (String.eqb_spec k' k); [contradiction | exact IH].
Qed.

Lemma get_set_other acc k v k' :
  k <> k' -> Grouping.get (Grouping.set acc k v) k' = Grouping.get acc k'.
Proof.
  intros Hk. induction acc as [|[k0 v0] acc IH]; simpl.
  - destruct (String.eqb_spec k k'); [contradiction | reflexivity].
  - destruct (String.eqb_spec k0 k) as [->|Hk0]; simpl.
    + destruct (String.eqb_spec k k'); [contradiction | reflexivity].
    + now rewrite IH.
Qed.

Lemma keys_set acc k v :
  Grouping.keys (Grouping.set acc k v)
  = match Grouping.get acc k with
    | Some _ => Grouping.keys acc
    | None => Grouping.keys acc ++ [k]
    end.
Proof.
  induction acc as [|[k' v'] acc IH]; simpl.
  - reflexivity.
  - destruct (String.eqb_spec k' k) as [->|Hk]; simpl.
    + reflexivity.
    + rewrite IH. now destruct (Grouping.get acc k).
Qed.

Lemma get_keys acc k :
  existsb (String.eqb k) (Grouping.keys acc)
  = match Grouping.get acc k with Some _ => true | None => false end.
Proof.
  induction acc as [|[k' v'] acc IH]; simpl.
  - reflexivity.
  - rewrite (String.eqb_sym k k').
    destruct (String.eqb_spec k' k); simpl; [reflexivity | exact IH].
Qed.

Lemma firstSeen_snoc l k :
  firstSeen (l ++ [k])
  = if existsb (String.eqb k) (firstSeen l)
    then firstSeen l else firstSeen l ++ [k].
Proof. unfold firstSeen. now rewrite fold_left_app. Qed.

Lemma select_snoc k l p :
  select k (l ++ [p])
  = select k l ++ (if (fst p =? k)%string then [snd p] else []).
Proof.
  unfold select. rewrite filter_app, map_app. simpl.
  now destruct (fst p =? k)%string.
Qed.

Lemma holds_nil : holds [] [].
Proof. split; [reflexivity | intros k; reflexivity]. Qed.

Lemma addTo_keys acc k x :
  Grouping.keys (addTo acc (k, x))
  = match Grouping.get acc k with
    | Some _ => Grouping.keys acc
    | None => Grouping.keys acc ++ [k]
    end.
Proof.
  unfold addTo; cbn [fst snd].
  destruct (Grouping.get acc k) as [old|] eqn:G.
  - now rewrite G, keys_set, G.
  - now rewrite get_set_same, !keys_set, get_set_same, G.
Qed.

Lemma addTo_get acc k x k' :
  Grouping.get (addTo acc (k, x)) k'
  = if (k' =? k)%string
    then Some (match Grouping.get acc k with
               | Some old => old
               | None => []
               end ++ [x])
    else Grouping.get acc k'.
Proof.
  unfold addTo; cbn [fst snd].
  destruct (String.eqb_spec k' k) as [->|Hk].
  - destruct (Grouping.get acc k) as [old|] eqn:G.
    + rewrite G. apply get_set_same.
    + rewrite get_set_same. apply get_set_same.
  - destruct (Grouping.get acc k) as [old|] eqn:G.
    + rewrite G. apply get_set_other. congruence.
    + rewrite get_set_same, !get_set_other by congruence. reflexivity.
Qed.

Lemma select_absent k l :
  existsb (String.eqb k) (map fst l) = false -> select k l = [].
Proof.
  unfold select. induction l as [|[k0 x0] l IH]; [reflexivity|].
  simpl. intros Ex. apply orb_false_iff in Ex. destruct Ex as [E1 E2].
  rewrite String.eqb_sym in E1. rewrite E1. now apply IH.
Qed.

Lemma holds_addTo acc l p :
  holds acc l -> holds (addTo acc p) (l ++ [p]).
Proof.
  intros [Keys Get]. destruct p as [k x].
  assert (Seen : existsb (String.eqb k) (firstSeen (map fst l))
                 = existsb (String.eqb k) (map fst l)).
  { rewrite <- Keys, get_keys, Get.
    now destruct (existsb (String.eqb k) (map fst l)). }
  split.
  - rewrite map_app; cbn [map fst].
    rewrite firstSeen_snoc, Seen, addTo_keys, Get, Keys.
    now destruct (existsb (String.eqb k) (map fst l)).
  - intros k'. rewrite map_app, existsb_app, select_snoc, addTo_get, !Get.
    cbn [map fst snd existsb]. rewrite orb_false_r, (String.eqb_sym k k').
    destruct (String.eqb_spec k' k) as [->|Hk].
    + rewrite orb_true_r.
      destruct (existsb (String.eqb k) (map fst l)) eqn:Ex.
      * reflexivity.
      * now rewrite (select_absent _ _ Ex).
    + now rewrite orb_false_r, app_nil_r.
Qed.

Lemma holds_fold l :
  holds (fold_left addTo l []) l.
Proof.
  induction l as [|p l IH] using rev_ind.
  - apply holds_nil.
  - rewrite fold_left_app. simpl. now apply holds_addTo.
Qed.

Lemma existsb_eqb_In k l : existsb (String.eqb k) l = true <-> In k l.
Proof.
  rewrite existsb_exists. split.
  - intros (y & Hy & E). apply String.eqb_eq in E. now subst.
  - intros H. exists k. split; [exact H | apply String.eqb_refl].
Qed.

Lemma existsb_eqb_not_In k l : existsb (String.eqb k) l = false <-> ~ In k l.
Proof.
  rewrite <- existsb_eqb_In.
  destruct (existsb (String.eqb k) l); split; congruence.
Qed.

Lemma firstSeen_existsb k l :
  existsb (String.eqb k) (firstSeen l) = existsb (String.eqb k) l.
Proof.
  induction l as [|k0 l IH] using rev_ind; [reflexivity|].
  rewrite firstSeen_snoc, existsb_app; cbn [existsb]. rewrite orb_false_r.
  destruct (existsb (String.eqb k0) (firstSeen l)) eqn:Ex.
  - rewrite IH. destruct (String.eqb_spec k k0) as [->|Hk].
    + rewrite <- IH, Ex. reflexivity.
    + now rewrite orb_false_r.
  - rewrite existsb_app; cbn [existsb]. now rewrite orb_false_r, IH.
Qed.

Lemma firstSeen_NoDup l : NoDup (firstSeen l).
Proof.
  induction l as [|k l IH] using rev_ind; [constructor|].
  rewrite firstSeen_snoc.
  destruct (existsb (String.eqb k) (firstSeen l)) eqn:Ex; [exact IH|].
  apply existsb_eqb_not_In in Ex.
  apply (Permutation_NoDup (l := k :: firstSeen l)).
  - apply Permutation_cons_append.
  - now constructor.
Qed.

Section Regroup.

Variable f : string -> list FormattedTransaction.
Variable k : string.
Variable x : FormattedTransaction.

Let g (k' : string) : list FormattedTransaction :=
  f k' ++ (if (k =? k')%string then [x] else []).

Lemma regroup_other keys : ~ In k keys -> flat_map g keys = flat_map f keys.
Proof.
  induction keys as [|k0 keys IH]; intros Hk; [reflexivity|].
  simpl. rewrite IH by (intros H; apply Hk; now right).
  unfold g. destruct (String.eqb_spec k k0) as [->|_].
  - exfalso. apply Hk. now left.
  - now rewrite app_nil_r.
Qed.

Lemma regroup_member keys :
  NoDup keys -> In k keys ->
  Permutation (flat_map g keys) (x :: flat_map f keys).
Proof.
  induction 1 as [|k0 keys Hk0 Hnd IH]; intros Hin; [contradiction|].
  simpl. unfold g at 1.
  destruct (String.eqb_spec k k0) as [<-|Hk].
  - rewrite regroup_other by assumption.
    rewrite <- app_assoc. simpl. symmetry. apply Permutation_middle.
  - rewrite app_nil_r. destruct Hin as [->|Hin]; [contradiction|].
    rewrite (IH Hin). symmetry. apply Permutation_middle.
Qed.

End Regroup.

Lemma select_partition l :
  Permutation (flat_map (fun k => select k l) (firstSeen (map fst l)))
              (map snd l).
Proof.
  induction l as [|[k x] l IH] using rev_ind; [constructor|].
  rewrite !map_app; cbn [map fst snd].
  rewrite firstSeen_snoc.
  assert (E : forall keys,
             flat_map (fun k' => select k' (l ++ [(k, x)])) keys
             = flat_map
                 (fun k' =>
                    select k' l ++ (if (k =? k')%string then [x] else []))
                 keys).
  { intros keys. apply flat_map_ext. intros k'. apply select_snoc. }
  rewrite E.
  destruct (existsb (String.eqb k) (firstSeen (map fst l))) eqn:Ex.
  - rewrite regroup_member;
      [| apply firstSeen_NoDup | now apply existsb_eqb_In].
    rewrite IH. apply Permutation_cons_append.
  - rewrite flat_map_app, regroup_other by now apply existsb_eqb_not_In.
    cbn [flat_map]. rewrite String.eqb_refl, app_nil_r.
    rewrite firstSeen_existsb in Ex. rewrite (select_absent _ _ Ex).
    cbn [app]. now apply Permutation_app_tail.
Qed.

Section Grouped.

Variables getFullYear getMonth getDate : Date -> Z.
Variable setDate : Date -> Z -> Date.
Variable toLocaleDateString : Date -> string.
Variable clock : nat -> Date.

Let today := clock 0.
Let yesterday := setDate (clock 1) (getDate today - 1).

Let scan :=
  labelled getFullYear getMonth getDate toLocaleDateString clock
    today yesterday.

Lemma labelled_events n txs : map snd (scan n txs) = txs.
Proof.
  revert n. induction txs as [|tx txs IH]; intros n; [reflexivity|].
  unfold scan in *. simpl.
  destruct (time tx); simpl; now rewrite IH.
Qed.

Lemma reducer_labelled txs acc n :
  fst (fold_left
         (Grouping.reducer getFullYear getMonth getDate toLocaleDateString
            clock today yesterday)
         txs (acc, n))
  = fold_left addTo (scan n txs) acc.
Proof.
  revert acc n. induction txs as [|tx txs IH]; intros acc n; [reflexivity|].
  unfold scan in *. simpl. destruct (time tx) as [d|]; simpl; apply IH.
Qed.

(** C8.  The sections of [groupTransactionsByDate] are, for each label of
    the input in the order in which the labels are first seen, the events
    that carry that label, in their input order; no title occurs twice,
    and the sections together hold exactly the events of the input. *)
Theorem grouping_partitions_in_order
    (txs : list FormattedTransaction) :
  let sections :=
    Grouping.groupTransactionsByDate getFullYear getMonth getDate setDate
      toLocaleDateString clock txs in
  map snd (scan 2 txs) = txs
  /\ sections
     = map (fun k => {| Grouping.title := k;
                        Grouping.data := select k (scan 2 txs) |})
           (firstSeen (map fst (scan 2 txs)))
  /\ NoDup (map Grouping.title sections)
  /\ Permutation (flat_map Grouping.data sections) txs.
Proof.
  intros sections.
  assert (Shape :
            sections
            = map (fun k => {| Grouping.title := k;
                               Grouping.data := select k (scan 2 txs) |})
                  (firstSeen (map fst (scan 2 txs)))).
  { subst sections. unfold Grouping.groupTransactionsByDate.
    destruct txs as [|tx txs]; [reflexivity|].
    fold today. fold yesterday. rewrite reducer_labelled.
    destruct (holds_fold (scan 2 (tx :: txs))) as [Keys Get].
    rewrite Keys. apply map_ext_in. intros k Hk.
    rewrite Get.
    apply existsb_eqb_In in Hk. rewrite firstSeen_existsb in Hk.
    now rewrite Hk. }
  split; [apply labelled_events|].
  split; [exact Shape|].
  rewrite Shape. split.
  - rewrite map_map; cbn [Grouping.title]. rewrite map_id.
    apply firstSeen_NoDup.
  - rewrite flat_map_concat_map, map_map; cbn [Grouping.data].
    rewrite <- flat_map_concat_map, select_partition.
    now rewrite labelled_events.
Qed.

End Grouped.

Example grouping_first_seen_order :
  Grouping.groupTransactionsByDate Samples.noField Samples.noField
    Samples.dayOf Samples.setDay Samples.dayLabel Samples.noon
    [Samples.at_time "s1" (10 * 86400000 + 60000);
     Samples.at_time "s2" (7 * 86400000 + 86340000);
     Samples.at_time "s3" (8 * 86400000 + 60000);
     Samples.at_time "s4" (7 * 86400000)]
  = [{| Grouping.title := "Today";
        Grouping.data := [Samples.at_time "s1" (10 * 86400000 + 60000)] |};
     {| Grouping.title := "H";
        Grouping.data := [Samples.at_time "s2" (7 * 86400000 + 86340000);
                          Samples.at_time "s4" (7 * 86400000)] |};
     {| Grouping.title := "I";
        Grouping.data := [Samples.at_time "s3" (8 * 86400000 + 60000)] |}].
Proof. reflexivity. Qed.

(** ** Pagination *)

Import History.

Ltac run_handler :=
  unfold exec, loadMore, onRefresh, fetchTransactions, try_catch_finally,
    bind, when, render, ret, throw, setTransactions, setLoading,
    setRefreshing, setLoadingMore, setError, setLastSignature, setHasMore.

(** X22.  A failed fetch of an older page leaves the list, the cursor and
    [hasMore] as they were, and sets the error. *)
Lemma failed_older_page_keeps_cursor fetch s :
  fetch (lastSignature s) = None ->
  let s' := exec (fetchTransactions fetch false) s in
  transactions s' = transactions s
  /\ lastSignature s' = lastSignature s
  /\ hasMore s' = hasMore s
  /\ error s' = Some "Error loading transactions".
Proof.
  intros F. run_handler. simpl. rewrite F. simpl. repeat split.
Qed.

(** A failed reload leaves the list as it was; the cursor is gone. *)
Lemma failed_reload_resets_cursor fetch s :
  fetch None = None ->
  let s' := exec (fetchTransactions fetch true) s in
  transactions s' = transactions s
  /\ lastSignature s' = None
  /\ hasMore s' = true.
Proof.
  intros F. run_handler. simpl. rewrite F. simpl. repeat split.
Qed.

(** C4, on the sample [shown].  The reload fails: the list still shows the
    payment, but the cursor that stood on it is reset.  The retry with
    [reset = false] that follows asks for the newest page instead of the
    page older than the payment, and the payment is shown twice. *)
Theorem failed_reload_then_retry_duplicates :
  let failed := exec (fetchTransactions Samples.unreachable true)
                     Samples.shown in
  let retried := exec (loadMore Samples.ledger) failed in
  transactions failed = transactions Samples.shown
  /\ lastSignature Samples.shown = Some "sigPayment"
  /\ lastSignature failed = None
  /\ transactions retried = [Samples.paymentEvent; Samples.paymentEvent].
Proof. repeat split. Qed.

(** C5.  A successful [fetchTransactions], called as the screen calls it
    (with [reset], or from [loadMore], that is with [hasMore] set), leaves
    [hasMore] false exactly when the fetched page is empty; and when
    [hasMore] is false every [loadMore] leaves all the cells as they
    are. *)
Theorem hasMore_false_iff_empty_page
    (fetch : option string -> option (list FormattedTransaction))
    (s : State) :
  (forall reset data,
      reset = true \/ hasMore s = true ->
      fetch (if reset then None else lastSignature s) = Some data ->
      (hasMore (exec (fetchTransactions fetch reset) s) = false
       <-> data = []))
  /\ (forall data,
        loadingMore s = false -> hasMore s = true ->
        fetch (lastSignature s) = Some data ->
        (hasMore (exec (loadMore fetch) s) = false <-> data = []))
  /\ (hasMore s = false ->
      forall fetches,
        fold_left (fun s fetch' => exec (loadMore fetch') s) fetches s = s).
Proof.
  split; [|split].
  - intros reset data Call F. run_handler. simpl. rewrite F.
    destruct reset, data as [|e data]; simpl; split; intros H;
      try reflexivity; try discriminate.
    destruct Call as [Call|Call]; congruence.
  - intros data L H F. run_handler. simpl. rewrite L, H. simpl. rewrite F.
    destruct data as [|e data]; simpl; split; intros E;
      try reflexivity; try discriminate; congruence.
  - intros H fetches. induction fetches as [|f fetches IH]; [reflexivity|].
    simpl. replace (exec (loadMore f) s) with s; [exact IH|].
    run_handler. simpl. rewrite H. now rewrite orb_true_r.
Qed.

Lemma hasMore_false_iff_empty_page_witness :
  (hasMore (exec (fetchTransactions Samples.ledger false) Samples.shown)
   = false <-> @nil FormattedTransaction = [])
  /\ (fold_left (fun s fetch' => exec (loadMore fetch') s)
        [Samples.ledger; Samples.unreachable]
        (exec (loadMore Samples.ledger) Samples.shown)
      = exec (loadMore Samples.ledger) Samples.shown).
Proof.
  split.
  - apply (proj1 (hasMore_false_iff_empty_page Samples.ledger Samples.shown)
             false []); [right; reflexivity | reflexivity].
  - apply (proj2 (proj2 (hasMore_false_iff_empty_page Samples.ledger
                           (exec (loadMore Samples.ledger) Samples.shown)))).
    reflexivity.
Defined.

(** * Further properties *)

(** ** What an event reports *)

Lemma Qlt_bool_0_lamports (d : Z) :
  Js.Qlt_bool 0 (inject_Z d / inject_Z LAMPORTS_PER_SOL) = (0 <? d).
Proof.
  unfold Js.Qlt_bool, Qle_bool, Qdiv, Qmult, Qinv, inject_Z,
    LAMPORTS_PER_SOL; simpl.
  destruct (Z.leb_spec (d * 1 * 1) 0), (Z.ltb_spec 0 d);
    try reflexivity; lia.
Qed.

Lemma solTransfer_push_delta a t m sig tm e :
  solTransfer a t m sig tm = SolPush e ->
  exists d,
    nativeDelta a t m = Some d
    /\ MIN_SOL_CHANGE < Z.abs d
    /\ token e = "SOL"
    /\ type e = (if 0 <? d then received else sent)
    /\ amount e = Qabs (inject_Z d / inject_Z LAMPORTS_PER_SOL).
Proof.
  unfold solTransfer, nativeDelta.
  destruct (Js.indexOf (accountKeys (message t)) a) as [i|]; [|discriminate].
  set (d := nth i (postBalances m) 0 - nth i (preBalances m) 0).
  destruct (Z.gtb_spec (Z.abs d) MIN_SOL_CHANGE) as [Hd|]; [|discriminate].
  destruct (Js.strict_eq _ _); [discriminate|].
  intros [= <-]. exists d. cbn [token type amount].
  rewrite Qlt_bool_0_lamports. repeat split; try reflexivity. lia.
Qed.

Lemma tokenTransfer_some_delta a t m sig tm post e :
  tokenTransfer a t m sig tm (preTokensOf m) (postTokensOf m) post = Some e ->
  owner post = Some a
  /\ ~ (tokenDelta m post == 0)%Q
  /\ token e
     = (if (mint post =? USDC_MINT)%string then "USDC" else mint post)
  /\ type e
     = (if Js.Qlt_bool 0 (tokenDelta m post) then received else sent)
  /\ amount e = Qabs (tokenDelta m post).
Proof.
  unfold tokenTransfer. fold (tokenDelta m post).
  destruct (Js.strict_eq (owner post) (Some a)) eqn:Own; simpl negb;
    cbv iota; [|discriminate].
  apply strict_eq_true in Own.
  rewrite Qabs_zero_bool.
  destruct (Qeq_bool (tokenDelta m post) 0) eqn:Z; [discriminate|].
  intros [= <-]. cbn [token type amount].
  repeat split; try assumption; try reflexivity.
  intros E. apply Qeq_bool_iff in E. congruence.
Qed.

Lemma Qabs_pos (q : Q) : ~ (q == 0)%Q -> (0 < Qabs q)%Q.
Proof.
  destruct q as [n p]. unfold Qeq, Qlt, Qabs; simpl. lia.
Qed.

(** X1.  Every event of [formatTransactions] has a strictly positive
    amount. *)
Theorem amount_positive (a : string) (txs : list ParsedTransactionWithMeta)
    (e : FormattedTransaction) :
  In e (formatTransactions a txs) -> (0 < amount e)%Q.
Proof.
  intros He. apply event_origin in He.
  destruct He as (tx & _ & [Nat | Tok]).
  - destruct Nat as (m & t & _ & _ & _ & Sol).
    apply solTransfer_push_delta in Sol.
    destruct Sol as (d & _ & Hd & _ & _ & ->).
    apply Qabs_pos. unfold Qeq, Qdiv, Qmult, Qinv, inject_Z,
      LAMPORTS_PER_SOL; simpl. unfold MIN_SOL_CHANGE in Hd. lia.
  - destruct Tok as (m & t & post & _ & _ & _ & _ & Tr).
    apply tokenTransfer_some_delta in Tr.
    destruct Tr as (_ & NZ & _ & _ & ->). now apply Qabs_pos.
Qed.

Lemma amount_positive_witness : (0 < amount Cases.tradeUsdcEvent)%Q.
Proof.
  apply (amount_positive Samples.alice [Cases.txTrade]).
  vm_compute. right. left. reflexivity.
Defined.

(** X2.  The native-leg event reports the native delta [d] of the tracked
    address: its token is "SOL", it is [received] exactly when [d] is
    positive and [sent] exactly when [d] is negative, and its amount is
    [|d|] divided by [LAMPORTS_PER_SOL]. *)
Theorem native_leg_reports_delta (a : string) (t : ParsedTransaction)
    (m : ParsedTransactionMeta) (sig : option string) (tm : option Date)
    (e : FormattedTransaction) :
  solTransfer a t m sig tm = SolPush e ->
  exists d,
    nativeDelta a t m = Some d
    /\ MIN_SOL_CHANGE < Z.abs d
    /\ token e = "SOL"
    /\ (type e = received <-> 0 < d)
    /\ (type e = sent <-> d < 0)
    /\ (amount e == inject_Z (Z.abs d) / inject_Z LAMPORTS_PER_SOL)%Q.
Proof.
  intros Sol. apply solTransfer_push_delta in Sol.
  destruct Sol as (d & Hn & Hd & Ht & Hty & Ha). exists d.
  repeat split; try assumption.
  - rewrite Hty. destruct (Z.ltb_spec 0 d); [trivial | discriminate].
  - rewrite Hty. destruct (Z.ltb_spec 0 d); [reflexivity | lia].
  - rewrite Hty. destruct (Z.ltb_spec 0 d); [discriminate | intros _].
    unfold MIN_SOL_CHANGE in Hd. lia.
  - rewrite Hty. destruct (Z.ltb_spec 0 d); [lia | reflexivity].
  - rewrite Ha. unfold Qeq, Qabs, Qdiv, Qmult, Qinv, inject_Z,
      LAMPORTS_PER_SOL; simpl. lia.
Qed.

Lemma native_leg_reports_delta_witness :
  exists d,
    nativeDelta Samples.alice Cases.tradeBody Cases.tradeMeta = Some d
    /\ MIN_SOL_CHANGE < Z.abs d
    /\ token Cases.tradeSolEvent = "SOL"
    /\ (type Cases.tradeSolEvent = received <-> 0 < d)
    /\ (type Cases.tradeSolEvent = sent <-> d < 0)
    /\ (amount Cases.tradeSolEvent
        == inject_Z (Z.abs d) / inject_Z LAMPORTS_PER_SOL)%Q.
Proof.
  apply (native_leg_reports_delta Samples.alice Cases.tradeBody
           Cases.tradeMeta (Some "sigTrade") (Some 1709300000000)).
  reflexivity.
Defined.

(** X3.  A token-leg event is pushed only for a balance entry owned by the
    tracked address whose delta is not zero; it is [received] exactly when
    the delta is positive, its amount is the magnitude of the delta, and
    its token is "USDC" for the USDC mint and the mint address itself for
    any other mint. *)
Theorem token_leg_reports_delta (a : string) (t : ParsedTransaction)
    (m : ParsedTransactionMeta) (sig : option string) (tm : option Date)
    (post : TokenBalance) (e : FormattedTransaction) :
  tokenTransfer a t m sig tm (preTokensOf m) (postTokensOf m) post = Some e ->
  owner post = Some a
  /\ ~ (tokenDelta m post == 0)%Q
  /\ (type e = received <-> (0 < tokenDelta m post)%Q)
  /\ (type e = sent <-> (tokenDelta m post < 0)%Q)
  /\ (amount e == Qabs (tokenDelta m post))%Q
  /\ (mint post = USDC_MINT -> token e = "USDC")
  /\ (mint post <> USDC_MINT -> token e = mint post).
Proof.
  intros Tr. apply tokenTransfer_some_delta in Tr.
  destruct Tr as (Own & NZ & Htok & Hty & Ha).
  assert (SignT : Js.Qlt_bool 0 (tokenDelta m post) = true ->
                  (0 < tokenDelta m post)%Q).
  { unfold Js.Qlt_bool. rewrite negb_true_iff. intros L.
    apply Qnot_le_lt. intros H. apply Qle_bool_iff in H. congruence. }
  assert (SignF : Js.Qlt_bool 0 (tokenDelta m post) = false ->
                  (tokenDelta m post < 0)%Q).
  { unfold Js.Qlt_bool. rewrite negb_false_iff. intros L.
    apply Qle_bool_iff in L. apply Qle_lt_or_eq in L.
    destruct L as [L|L]; [exact L | contradiction]. }
  assert (Asym : (0 < tokenDelta m post)%Q ->
                 (tokenDelta m post < 0)%Q -> False).
  { intros P N. apply (Qlt_irrefl 0).
    now apply Qlt_trans with (tokenDelta m post). }
  rewrite Hty, Htok.
  repeat split; try assumption.
  - destruct (Js.Qlt_bool 0 (tokenDelta m post));
      [intros _; now apply SignT | discriminate].
  - intros P. destruct (Js.Qlt_bool 0 (tokenDelta m post));
      [reflexivity|]. exfalso. apply (Asym P). now apply SignF.
  - destruct (Js.Qlt_bool 0 (tokenDelta m post));
      [discriminate | intros _; now apply SignF].
  - intros N. destruct (Js.Qlt_bool 0 (tokenDelta m post));
      [|reflexivity]. exfalso. apply Asym; [now apply SignT | exact N].
  - now rewrite Ha.
  - intros ->. now rewrite String.eqb_refl.
  - intros H.
    destruct (String.eqb_spec (mint post) USDC_MINT); [contradiction|].
    reflexivity.
Qed.

Lemma token_leg_reports_delta_witness :
  owner (Samples.balance 2 (Some Samples.alice) 5) = Some Samples.alice
  /\ (amount Cases.tradeUsdcEvent
      == Qabs (tokenDelta Cases.tradeMeta
                 (Samples.balance 2 (Some Samples.alice) 5)))%Q.
Proof.
  destruct (token_leg_reports_delta Samples.alice Cases.tradeBody
              Cases.tradeMeta (Some "sigTrade") (Some 1709300000000)
              (Samples.balance 2 (Some Samples.alice) 5)
              Cases.tradeUsdcEvent eq_refl)
    as (Own & _ & _ & _ & Am & _).
  split; assumption.
Defined.

(** ** Where events come from *)

(** X4.  No event without an observed balance change: every event comes
    from a transaction of the input that succeeded and in which either the
    native delta of the tracked address exceeds the dust threshold or a
    post-transaction token balance owned by the tracked address has a
    non-zero delta. *)
Theorem event_needs_balance_change (a : string)
    (txs : list ParsedTransactionWithMeta) (e : FormattedTransaction) :
  In e (formatTransactions a txs) ->
  exists tx m t,
    In tx txs /\ meta tx = Some m /\ transaction tx = Some t
    /\ err m = None
    /\ ((exists d, nativeDelta a t m = Some d /\ MIN_SOL_CHANGE < Z.abs d)
        \/ (exists post,
              In post (postTokensOf m) /\ owner post = Some a
              /\ ~ (tokenDelta m post == 0)%Q)).
Proof.
  intros He. apply event_origin in He.
  destruct He as (tx & Htx & [Nat | Tok]).
  - destruct Nat as (m & t & Hm & Ht & Herr & Sol).
    exists tx, m, t. repeat split; try assumption. left.
    apply solTransfer_push_delta in Sol.
    destruct Sol as (d & Hd & Habs & _). now exists d.
  - destruct Tok as (m & t & post & Hm & Ht & Herr & Hin & Tr).
    exists tx, m, t. repeat split; try assumption. right.
    apply tokenTransfer_some_delta in Tr.
    destruct Tr as (Own & NZ & _). now exists post.
Qed.

Lemma event_needs_balance_change_witness :
  exists tx m t,
    In tx [Cases.txOther; Cases.txTrade]
    /\ meta tx = Some m /\ transaction tx = Some t
    /\ err m = None
    /\ ((exists d,
           nativeDelta Samples.alice t m = Some d
           /\ MIN_SOL_CHANGE < Z.abs d)
        \/ (exists post,
              In post (postTokensOf m) /\ owner post = Some Samples.alice
              /\ ~ (tokenDelta m post == 0)%Q)).
Proof.
  apply (event_needs_balance_change Samples.alice
           [Cases.txOther; Cases.txTrade] Cases.tradeSolEvent).
  vm_compute. left. reflexivity.
Defined.

Lemma solTransfer_absent a t m sig tm :
  Js.indexOf (accountKeys (message t)) a = None ->
  solTransfer a t m sig tm = SolNothing.
Proof. intros H. unfold solTransfer. now rewrite H. Qed.

Lemma tokenLegs_not_owner a t m tm :
  (forall post, In post (postTokensOf m) -> owner post <> Some a) ->
  tokenLegs a t m tm = [].
Proof.
  intros H. unfold tokenLegs.
  assert (G : forall preT postT l,
             (forall post, In post l -> owner post <> Some a) ->
             flat_map
               (fun post =>
                  to_list (tokenTransfer a t m (signatureOf t) tm preT postT
                             post)) l = []).
  { intros preT postT l. induction l as [|post l IH]; intros Hl;
      [reflexivity|].
    simpl. rewrite IH by (intros p Hp; apply Hl; now right).
    unfold tokenTransfer.
    replace (Js.strict_eq (owner post) (Some a)) with false; [reflexivity|].
    symmetry. apply strict_eq_false. apply Hl. now left. }
  now apply G.
Qed.

(** X5.  A transaction in which the tracked address is neither an account
    key nor the owner of a post-transaction token balance contributes no
    event, wherever it stands in the input. *)
Theorem uninvolved_transaction_no_event (a : string)
    (tx : ParsedTransactionWithMeta) (m : ParsedTransactionMeta)
    (t : ParsedTransaction) :
  meta tx = Some m ->
  transaction tx = Some t ->
  Js.indexOf (accountKeys (message t)) a = None ->
  (forall post, In post (postTokensOf m) -> owner post <> Some a) ->
  forall before after,
    formatTransactions a (before ++ tx :: after)
    = formatTransactions a (before ++ after).
Proof.
  intros Hm Ht Hkey Hown before after.
  rewrite !formatTransactions_flat_map, !flat_map_app. f_equal.
  simpl. replace (eventsOf a tx) with (@nil FormattedTransaction);
    [reflexivity|].
  unfold eventsOf. rewrite Hm, Ht.
  destruct (err m); [reflexivity|].
  rewrite solTransfer_absent by assumption.
  symmetry. now apply tokenLegs_not_owner.
Qed.

Lemma uninvolved_transaction_no_event_witness :
  formatTransactions Samples.alice
    ([Cases.txTrade] ++ Cases.txOther :: [Samples.txPayment])
  = formatTransactions Samples.alice
      ([Cases.txTrade] ++ [Samples.txPayment]).
Proof.
  apply (uninvolved_transaction_no_event Samples.alice Cases.txOther
           Cases.otherMeta Cases.otherBody); try reflexivity.
  intros post [].
Defined.

Lemma events_share_signature_and_time_witness :
  signature Cases.tradeUsdcEvent = signatureOf Cases.tradeBody
  /\ time Cases.tradeUsdcEvent = timeOf Cases.txTrade.
Proof.
  apply (events_share_signature_and_time Samples.alice Cases.txTrade
           Cases.tradeBody Cases.tradeUsdcEvent).
  - reflexivity.
  - vm_compute. right. left. reflexivity.
Defined.

Lemma legs_coexist_witness :
  formatTransactions Samples.alice [Cases.txTrade]
  = Cases.tradeSolEvent
    :: tokenLegs Samples.alice Cases.tradeBody Cases.tradeMeta
         (timeOf Cases.txTrade).
Proof.
  apply (legs_coexist Samples.alice Cases.txTrade Cases.tradeMeta
           Cases.tradeBody Cases.tradeSolEvent); reflexivity.
Defined.

(** X8.  Pages are formatted independently: the events of two lists of
    transactions put end to end are the events of the first followed by
    the events of the second. *)
Theorem pages_format_independently (a : string)
    (page1 page2 : list ParsedTransactionWithMeta) :
  formatTransactions a (page1 ++ page2)
  = formatTransactions a page1 ++ formatTransactions a page2.
Proof.
  unfold formatTransactions. rewrite fold_left_app.
  rewrite (fold_formatTransaction a page2 (fold_left _ page1 [])).
  rewrite (fold_formatTransaction a page2 []). reflexivity.
Qed.

(** X14.  All the token legs of one transaction carry the same pair: for a
    non-empty tracked address, two token-leg events of the same
    transaction have the same [from] and the same [to], whatever balance
    entries they come from. *)
Theorem token_legs_share_counterparty (a : string)
    (tx : ParsedTransactionWithMeta) (e1 e2 : FormattedTransaction) :
  a <> "" ->
  isTokenLeg a tx e1 ->
  isTokenLeg a tx e2 ->
  from e1 = from e2 /\ to e1 = to e2.
Proof.
  intros Ha (m & t & p1 & Hm & Ht & _ & _ & T1)
            (m' & t' & p2 & Hm' & Ht' & _ & _ & T2).
  rewrite Hm in Hm'. injection Hm' as <-.
  rewrite Ht in Ht'. injection Ht' as <-.
  apply tokenTransfer_some in T1. apply tokenTransfer_some in T2.
  destruct T1 as (_ & r1 & f1 & g1 & E1 & F1 & G1 & _).
  destruct T2 as (_ & r2 & f2 & g2 & E2 & F2 & G2 & _).
  destruct (extractTokenAddresses_sides t m a (accountIndex p1)
              (preTokensOf m) (postTokensOf m) Ha)
    as (r & Er & NF & NT & _).
  assert (r1 = r) by congruence. subst r1.
  assert (r2 = r).
  { unfold extractTokenAddresses in *. congruence. }
  subst r2.
  rewrite (or_else_some _ f1 NF) in F1. rewrite (or_else_some _ f2 NF) in F2.
  rewrite (or_else_some _ g1 NT) in G1. rewrite (or_else_some _ g2 NT) in G2.
  split; congruence.
Qed.

Example swap_events :
  formatTransactions Samples.alice [Cases.txSwap]
  = [Cases.swapUsdcEvent; Cases.swapBonkEvent].
Proof. reflexivity. Qed.

Lemma token_legs_share_counterparty_witness :
  from Cases.swapUsdcEvent = from Cases.swapBonkEvent
  /\ to Cases.swapUsdcEvent = to Cases.swapBonkEvent.
Proof.
  apply (token_legs_share_counterparty Samples.alice Cases.txSwap).
  - discriminate.
  - exists Cases.swapMeta, Cases.swapBody,
      (Samples.balance 1 (Some Samples.alice) 4).
    repeat split; try reflexivity. left. reflexivity.
  - exists Cases.swapMeta, Cases.swapBody,
      (Cases.bonk 3 (Some Samples.alice) 3).
    repeat split; try reflexivity. right. right. left. reflexivity.
Defined.

(** ** The resolvers *)

Lemma fold_app_concat (A B : Type) (f : A -> list B) (l : list A)
    (init : list B) :
  fold_left (fun acc x => acc ++ f x) l init = init ++ List.concat (map f l).
Proof.
  revert init. induction l as [|x l IH]; intros init; simpl.
  - now rewrite app_nil_r.
  - now rewrite IH, app_assoc.
Qed.

(** X9.  The instructions are scanned in this order: the top-level
    instructions, then the instructions of each inner group, group after
    group; without [meta] or without inner groups, the top-level
    instructions alone. *)
Theorem allInstructions_order (t : ParsedTransaction)
    (m : option ParsedTransactionMeta) :
  allInstructions t m
  = instructions (message t)
    ++ List.concat
         (map inner_instructions
            (match m with
             | Some m =>
                 match innerInstructions m with
                 | Some inners => inners
                 | None => []
                 end
             | None => []
             end)).
Proof.
  unfold allInstructions. destruct m as [m|]; simpl.
  - destruct (innerInstructions m) as [inners|]; simpl.
    + apply fold_app_concat.
    + now rewrite app_nil_r.
  - now rewrite app_nil_r.
Qed.

Lemma find_first (A : Type) (f : A -> bool) (before : list A) (x : A)
    (after : list A) :
  (forall y, In y before -> f y = false) ->
  f x = true ->
  find f (before ++ x :: after) = Some x.
Proof.
  intros Hb Hx. induction before as [|y before IH]; simpl.
  - now rewrite Hx.
  - rewrite (Hb y) by now left. apply IH. intros z Hz. apply Hb. now right.
Qed.

(** X10.  The first system transfer, in scanning order, whose source or
    destination is the tracked address decides the native pair: the result
    is its source and destination, whatever the balances of the
    transaction and whatever instructions follow. *)
Theorem first_transfer_is_authoritative (t : ParsedTransaction)
    (m : option ParsedTransactionMeta) (a : string)
    (before after : list Instruction) (ix : Instruction) :
  allInstructions t m = before ++ ix :: after ->
  (forall ix', In ix' before -> isSystemTransferOf a ix' = false) ->
  isSystemTransferOf a ix = true ->
  exists program p,
    ix = ParsedInstruction program (Some p)
    /\ extractSOLAddresses t m a
       = Some {| addr_from := source (info p);
                 addr_to := destination (info p) |}.
Proof.
  intros Hall Hbefore Hix.
  destruct (isSystemTransferOf_inv _ _ Hix) as (program & p & -> & _).
  exists program, p. split; [reflexivity|].
  unfold extractSOLAddresses.
  now rewrite Hall, (find_first _ _ _ _ _ Hbefore Hix).
Qed.

Lemma first_transfer_is_authoritative_witness :
  exists program p,
    Samples.systemTransfer Samples.alice Samples.bob
    = ParsedInstruction program (Some p)
    /\ extractSOLAddresses Cases.cpiBody (Some Cases.cpiMeta) Samples.alice
       = Some {| addr_from := source (info p);
                 addr_to := destination (info p) |}.
Proof.
  apply (first_transfer_is_authoritative Cases.cpiBody (Some Cases.cpiMeta)
           Samples.alice [PartiallyDecodedInstruction] []).
  - reflexivity.
  - intros ix' [<-|[]]. reflexivity.
  - reflexivity.
Defined.

(** Without a system transfer naming the tracked address, the pair
    is [{external, external}] when the tracked address is not an account
    key; otherwise the tracked address is one side and the other side is
    [external] or the key of an account at another index. *)
Theorem fallback_names_another_account (t : ParsedTransaction)
    (m : ParsedTransactionMeta) (a : string) :
  find (isSystemTransferOf a) (allInstructions t (Some m)) = None ->
  exists r,
    extractSOLAddresses t (Some m) a = Some r
    /\ match Js.indexOf (accountKeys (message t)) a with
       | None => addr_from r = external /\ addr_to r = external
       | Some myIndex =>
           exists c,
             ((addr_from r = a /\ addr_to r = c)
              \/ (addr_from r = c /\ addr_to r = a))
             /\ (c = external
                 \/ exists j,
                      j <> myIndex
                      /\ nth_error (accountKeys (message t)) j = Some c)
       end.
Proof.
  intros Hfind. unfold extractSOLAddresses. rewrite Hfind.
  eexists. split; [reflexivity|]. unfold balanceFallback.
  destruct (Js.indexOf (accountKeys (message t)) a) as [i|];
    [|split; reflexivity].
  assert (Other : forall score st,
             scanned (accountKeys (message t)) score i
               (List.length (accountKeys (message t))) st ->
             snd st = external
             \/ exists j,
                  j <> i
                  /\ nth_error (accountKeys (message t)) j = Some (snd st)).
  { intros score st Sc. apply scanned_counterparty in Sc.
    destruct Sc as [[E _] | (j & (_ & Hj & _) & Key)]; [now left|].
    right. now exists j. }
  match goal with |- context [if ?c then _ else _] => destruct c end;
    cbn [addr_from addr_to]; eexists; split.
  - left. split; reflexivity.
  - rewrite (fold_left_ext_in _ _ _ _ _ (scanSent_scanStep _ _ _ _)).
    eapply Other, scanned_fold.
  - right. split; reflexivity.
  - rewrite (fold_left_ext_in _ _ _ _ _ (scanReceived_scanStep _ _ _ _)).
    eapply Other, scanned_fold.
Qed.

Lemma fallback_names_another_account_witness :
  exists r,
    extractSOLAddresses Samples.splitBody (Some Samples.splitMeta)
      Samples.alice = Some r
    /\ match
         Js.indexOf (accountKeys (message Samples.splitBody)) Samples.alice
       with
       | None => addr_from r = external /\ addr_to r = external
       | Some myIndex =>
           exists c,
             ((addr_from r = Samples.alice /\ addr_to r = c)
              \/ (addr_from r = c /\ addr_to r = Samples.alice))
             /\ (c = external
                 \/ exists j,
                      j <> myIndex
                      /\ nth_error (accountKeys (message Samples.splitBody))
                           j = Some c)
       end.
Proof.
  apply (fallback_names_another_account Samples.splitBody Samples.splitMeta
           Samples.alice).
  reflexivity.
Defined.

Lemma truthy_some o : Js.truthy o = true <-> exists s, o = Some s /\ s <> "".
Proof.
  destruct o as [s|]; simpl.
  - destruct (String.eqb_spec s ""); simpl; split.
    + discriminate.
    + intros (s' & [= <-] & H). contradiction.
    + intros _. now exists s.
    + reflexivity.
  - split; [discriminate | intros (s & H & _); discriminate].
Qed.

(** X11.  [resolveOwner] answers with a non-empty owner taken from a
    balance entry, pre-transaction or post-transaction, whose account
    index points at the given token account; and when the first such
    pre-transaction entry has a non-empty owner, that owner is the
    answer, whatever the post-transaction entries say. *)
Theorem resolveOwner_sound (keys : list string)
    (preT postT : list TokenBalance) (addr : string) :
  (forall o,
      resolveOwner keys preT postT addr = Some o ->
      o <> ""
      /\ exists b,
           (In b preT \/ In b postT)
           /\ nth_error keys (accountIndex b) = Some addr
           /\ owner b = Some o)
  /\ (forall b o,
        find (fun b => Js.strict_eq (nth_error keys (accountIndex b))
                                    (Some addr)) preT = Some b ->
        owner b = Some o -> o <> "" ->
        resolveOwner keys preT postT addr = Some o).
Proof.
  unfold resolveOwner.
  set (at_addr := fun b : TokenBalance =>
                    Js.strict_eq (nth_error keys (accountIndex b))
                                 (Some addr)).
  split.
  - intros o.
    destruct (find at_addr preT) as [b|] eqn:Fpre.
    + destruct (Js.truthy (owner b)) eqn:T.
      * intros Ho. apply truthy_some in T. destruct T as (s & Hs & Ne).
        assert (s = o) by congruence. subst s. split; [exact Ne|].
        apply find_some in Fpre. destruct Fpre as [Hin Hat].
        exists b. repeat split; auto. now apply strict_eq_true in Hat.
      * destruct (find at_addr postT) as [b'|] eqn:Fpost; [|discriminate].
        destruct (Js.truthy (owner b')) eqn:T'; [|discriminate].
        intros Ho. apply truthy_some in T'. destruct T' as (s & Hs & Ne).
        assert (s = o) by congruence. subst s. split; [exact Ne|].
        apply find_some in Fpost. destruct Fpost as [Hin Hat].
        exists b'. repeat split; auto. now apply strict_eq_true in Hat.
    + simpl.
      destruct (find at_addr postT) as [b'|] eqn:Fpost; [|discriminate].
      destruct (Js.truthy (owner b')) eqn:T'; [|discriminate].
      intros Ho. apply truthy_some in T'. destruct T' as (s & Hs & Ne).
      assert (s = o) by congruence. subst s. split; [exact Ne|].
      apply find_some in Fpost. destruct Fpost as [Hin Hat].
      exists b'. repeat split; auto. now apply strict_eq_true in Hat.
  - intros b o Fpre Ho Ne. rewrite Fpre.
    replace (Js.truthy (owner b)) with true; [exact Ho|].
    symmetry. apply truthy_some. now exists o.
Qed.

Lemma resolveOwner_sound_witness :
  resolveOwner (accountKeys (message Cases.swapBody))
    (preTokensOf Cases.swapMeta) (postTokensOf Cases.swapMeta)
    Samples.bobUsdc
  = Some Samples.bob.
Proof.
  apply (proj2 (resolveOwner_sound (accountKeys (message Cases.swapBody))
                  (preTokensOf Cases.swapMeta) (postTokensOf Cases.swapMeta)
                  Samples.bobUsdc)
           (Samples.balance 2 (Some Samples.bob) 0) Samples.bob).
  - reflexivity.
  - reflexivity.
  - discriminate.
Defined.

Lemma find_spl_transfer t m program p :
  find isSplTransfer (allInstructions t m)
  = Some (ParsedInstruction program (Some p)) ->
  forall a idx preT postT,
    extractTokenAddresses t m a idx preT postT
    = let keys := accountKeys (message t) in
      let sourceOwner := resolveOwner keys preT postT (source (info p)) in
      let destOwner :=
        resolveOwner keys preT postT (destination (info p)) in
      if Js.strict_eq sourceOwner (Some a)
         || Js.strict_eq (authority (info p)) (Some a)
      then
        Some {| addr_from := a;
                addr_to :=
                  Js.or_else destOwner
                    (Js.or_else (Some (destination (info p))) external) |}
      else
        Some {| addr_from :=
                  Js.or_else sourceOwner
                    (Js.or_else (Some (source (info p))) external);
                addr_to := a |}.
Proof.
  intros F a idx preT postT. unfold extractTokenAddresses. now rewrite F.
Qed.

(** X12.  When the balances do not give the owner of the counterparty's
    token account, the counterparty is that token account's own address,
    not [external]: for a transfer sent by the tracked wallet, [to] is the
    destination address of the instruction; for a transfer it receives,
    [from] is the source address. *)
Theorem unresolved_owner_shows_token_account (t : ParsedTransaction)
    (m : option ParsedTransactionMeta) (a : string) (idx : nat)
    (preT postT : list TokenBalance) (program : string) (p : Parsed) :
  find isSplTransfer (allInstructions t m)
  = Some (ParsedInstruction program (Some p)) ->
  (resolveOwner (accountKeys (message t)) preT postT
     (source (info p)) = Some a
   \/ authority (info p) = Some a ->
   resolveOwner (accountKeys (message t)) preT postT
     (destination (info p)) = None ->
   destination (info p) <> "" ->
   extractTokenAddresses t m a idx preT postT
   = Some {| addr_from := a; addr_to := destination (info p) |})
  /\ (resolveOwner (accountKeys (message t)) preT postT
        (source (info p)) = None ->
      authority (info p) <> Some a ->
      source (info p) <> "" ->
      extractTokenAddresses t m a idx preT postT
      = Some {| addr_from := source (info p); addr_to := a |}).
Proof.
  intros F. rewrite (find_spl_transfer _ _ _ _ F). cbv zeta. split.
  - intros Sender Dest Ne.
    replace (Js.strict_eq _ (Some a) || Js.strict_eq _ (Some a)) with true.
    + rewrite Dest. cbn [Js.or_else].
      destruct (String.eqb_spec (destination (info p)) "");
        [contradiction | reflexivity].
    + symmetry. apply orb_true_iff.
      destruct Sender as [S|S]; [left|right]; now apply strict_eq_true.
  - intros Src Auth Ne. rewrite Src.
    replace (Js.strict_eq (authority (info p)) (Some a)) with false
      by (symmetry; now apply strict_eq_false).
    cbn [Js.strict_eq orb Js.or_else].
    destruct (String.eqb_spec (source (info p)) "");
      [contradiction | reflexivity].
Qed.

Lemma unresolved_owner_shows_token_account_witness :
  extractTokenAddresses Cases.vaultBody (Some Cases.vaultMeta) Samples.alice
    1 Cases.vaultPre Cases.vaultPost
  = Some {| addr_from := Samples.alice; addr_to := Cases.vaultUsdc |}.
Proof.
  apply (proj1 (unresolved_owner_shows_token_account Cases.vaultBody
                  (Some Cases.vaultMeta) Samples.alice 1 Cases.vaultPre
                  Cases.vaultPost "spl-token"
                  {| ptype := "transferChecked";
                     info := {| source := Samples.aliceUsdc;
                                destination := Cases.vaultUsdc;
                                authority := Some Samples.alice |} |}
                  eq_refl)).
  - left. reflexivity.
  - reflexivity.
  - discriminate.
Defined.

(** X13.  A transfer whose authority is the tracked address counts as sent
    by the tracked wallet, whoever owns the source token account: the pair
    has the tracked address as [from]. *)
Theorem authority_makes_sender (t : ParsedTransaction)
    (m : option ParsedTransactionMeta) (a : string) (idx : nat)
    (preT postT : list TokenBalance) (program : string) (p : Parsed) :
  find isSplTransfer (allInstructions t m)
  = Some (ParsedInstruction program (Some p)) ->
  authority (info p) = Some a ->
  exists c,
    extractTokenAddresses t m a idx preT postT
    = Some {| addr_from := a; addr_to := c |}
    /\ c <> "".
Proof.
  intros F Auth. rewrite (find_spl_transfer _ _ _ _ F). cbv zeta.
  replace (Js.strict_eq (authority (info p)) (Some a)) with true
    by (symmetry; now apply strict_eq_true).
  rewrite orb_true_r. eexists. split; [reflexivity|].
  apply or_else_nonEmpty, or_else_nonEmpty, external_nonEmpty.
Qed.

Lemma authority_makes_sender_witness :
  exists c,
    extractTokenAddresses Cases.swapBody (Some Cases.swapMeta) Samples.alice
      3 (preTokensOf Cases.swapMeta) (postTokensOf Cases.swapMeta)
    = Some {| addr_from := Samples.alice; addr_to := c |}
    /\ c <> "".
Proof.
  apply (authority_makes_sender Cases.swapBody (Some Cases.swapMeta)
           Samples.alice 3 (preTokensOf Cases.swapMeta)
           (postTokensOf Cases.swapMeta) "spl-token"
           {| ptype := "transferChecked";
              info := {| source := Samples.aliceUsdc;
                         destination := Samples.bobUsdc;
                         authority := Some Samples.alice |} |});
    reflexivity.
Defined.

(** ** Sections *)

Lemma select_app k l1 l2 : select k (l1 ++ l2) = select k l1 ++ select k l2.
Proof. unfold select. now rewrite filter_app, map_app. Qed.

Lemma select_In k x l : In x (select k l) <-> In (k, x) l.
Proof.
  unfold select. rewrite in_map_iff. split.
  - intros ([k' x'] & E & Hin). simpl in E. subst x'.
    apply filter_In in Hin. destruct Hin as [Hin Hk]. simpl in Hk.
    apply String.eqb_eq in Hk. now subst.
  - intros Hin. exists (k, x). split; [reflexivity|].
    apply filter_In. split; [exact Hin | apply String.eqb_refl].
Qed.

Lemma firstSeen_In k l : In k (firstSeen l) <-> In k l.
Proof. now rewrite <- !existsb_eqb_In, firstSeen_existsb. Qed.

Lemma firstSeen_app_prefix l1 l2 :
  exists more, firstSeen (l1 ++ l2) = firstSeen l1 ++ more.
Proof.
  induction l2 as [|k l2 IH] using rev_ind.
  - exists []. now rewrite !app_nil_r.
  - destruct IH as (more & E). rewrite app_assoc, firstSeen_snoc, E.
    destruct (existsb (String.eqb k) (firstSeen l1 ++ more)).
    + now exists more.
    + exists (more ++ [k]). now rewrite app_assoc.
Qed.

Section Paged.

Variables getFullYear getMonth getDate : Date -> Z.
Variable setDate : Date -> Z -> Date.
Variable toLocaleDateString : Date -> string.
Variable clock : nat -> Date.

Let today := clock 0.
Let yesterday := setDate (clock 1) (getDate today - 1).

Let label :=
  labelled getFullYear getMonth getDate toLocaleDateString clock
    today yesterday.

Let group :=
  Grouping.groupTransactionsByDate getFullYear getMonth getDate setDate
    toLocaleDateString clock.

(** The number of events without a time. *)
Let untimed (txs : list FormattedTransaction) : nat :=
  List.length (filter (fun tx => match time tx with
                                 | Some _ => false
                                 | None => true
                                 end) txs).

Lemma label_app n txs1 txs2 :
  label n (txs1 ++ txs2)
  = label n txs1 ++ label (n + untimed txs1) txs2.
Proof.
  revert n. induction txs1 as [|tx txs1 IH]; intros n.
  - simpl. now rewrite Nat.add_0_r.
  - unfold label, untimed in *. simpl. destruct (time tx); simpl.
    + now rewrite IH.
    + rewrite IH. now rewrite Nat.add_succ_r.
Qed.

Lemma sections_shape txs :
  group txs
  = map (fun k => {| Grouping.title := k;
                     Grouping.data := select k (label 2 txs) |})
        (firstSeen (map fst (label 2 txs))).
Proof.
  unfold group, Grouping.groupTransactionsByDate.
  destruct txs as [|tx txs]; [reflexivity|].
  fold today. fold yesterday.
  assert (R : forall l acc n,
             fst (fold_left
                    (Grouping.reducer getFullYear getMonth getDate
                       toLocaleDateString clock today yesterday)
                    l (acc, n))
             = fold_left addTo (label n l) acc).
  { induction l as [|x l IH]; intros acc n; [reflexivity|].
    unfold label in *. simpl. destruct (time x); simpl; apply IH. }
  rewrite R.
  destruct (holds_fold (label 2 (tx :: txs))) as [Keys Get].
  rewrite Keys. apply map_ext_in. intros k Hk. rewrite Get.
  apply existsb_eqb_In in Hk. rewrite firstSeen_existsb in Hk.
  now rewrite Hk.
Qed.

(** X15.  No section is empty: every section of
    [groupTransactionsByDate] holds at least one event. *)
Theorem sections_are_not_empty (txs : list FormattedTransaction)
    (s : Grouping.TransactionSection) :
  In s (group txs) -> Grouping.data s <> [].
Proof.
  rewrite sections_shape, in_map_iff. intros (k & <- & Hk). simpl.
  apply firstSeen_In, in_map_iff in Hk. destruct Hk as ([k' x] & E & Hin).
  simpl in E. subst k'. apply (proj2 (select_In k x _)) in Hin.
  intros E. now rewrite E in Hin.
Qed.

Lemma label_events n txs : map snd (label n txs) = txs.
Proof.
  revert n. induction txs as [|tx txs IH]; intros n; [reflexivity|].
  unfold label in *. simpl. destruct (time tx); simpl; now rewrite IH.
Qed.

(** X16.  Appending a page changes no section already there.  Let [added]
    be the events of the appended page [txs2] with their labels, the clock
    being read on from where the scan of [txs1] left it.  The titles of
    the sections of [txs1] are, in the same order, the first titles of the
    sections of [txs1 ++ txs2]; each section of [txs1] is found again, its
    events followed by exactly the events of [added] that carry its title,
    in their order; and a section whose title is new holds exactly the
    events of [added] that carry that title. *)
Theorem appended_page_extends_sections
    (txs1 txs2 : list FormattedTransaction) :
  let added := label (2 + untimed txs1) txs2 in
  map snd added = txs2
  /\ (exists more,
        map Grouping.title (group (txs1 ++ txs2))
        = map Grouping.title (group txs1) ++ more)
  /\ (forall s1,
        In s1 (group txs1) ->
        In {| Grouping.title := Grouping.title s1;
              Grouping.data :=
                Grouping.data s1 ++ select (Grouping.title s1) added |}
           (group (txs1 ++ txs2)))
  /\ (forall s2,
        In s2 (group (txs1 ++ txs2)) ->
        ~ In (Grouping.title s2) (map Grouping.title (group txs1)) ->
        Grouping.data s2 = select (Grouping.title s2) added).
Proof.
  intros added. subst added.
  split; [apply label_events|].
  rewrite !sections_shape, label_app, map_app.
  set (l1 := label 2 txs1). set (l2 := label (2 + untimed txs1) txs2).
  destruct (firstSeen_app_prefix (map fst l1) (map fst l2)) as (more & E).
  assert (Titles : forall l : list (string * FormattedTransaction),
             forall keys,
               map Grouping.title
                 (map (fun k => {| Grouping.title := k;
                                   Grouping.data := select k l |}) keys)
               = keys).
  { intros l keys. rewrite map_map; cbn [Grouping.title]. apply map_id. }
  split; [|split].
  - exists more. now rewrite !Titles, E.
  - intros s1 Hs1. apply in_map_iff in Hs1. destruct Hs1 as (k & <- & Hk).
    cbn [Grouping.title Grouping.data]. rewrite <- select_app.
    apply in_map_iff. exists k. split; [reflexivity|].
    rewrite E. apply in_or_app. now left.
  - intros s2 Hs2 New. apply in_map_iff in Hs2.
    destruct Hs2 as (k & <- & Hk). cbn [Grouping.title Grouping.data] in *.
    rewrite Titles in New. rewrite select_app.
    rewrite (select_absent k l1); [reflexivity|].
    apply existsb_eqb_not_In. intros H. apply New. now apply firstSeen_In.
Qed.

(** X17.  An event without a time is dated by the clock: when every
    reading of the clock during the call falls on the day of the first
    one, each event whose [time] is [null] lies in the section titled
    "Today". *)
Theorem untimed_events_are_today (txs : list FormattedTransaction)
    (tx : FormattedTransaction) :
  (forall n,
      Grouping.isSameDay getFullYear getMonth getDate (clock n) (clock 0)
      = true) ->
  In tx txs ->
  time tx = None ->
  exists s,
    In s (group txs) /\ Grouping.title s = "Today"
    /\ In tx (Grouping.data s).
Proof.
  intros Same Hin Ht.
  assert (L : forall n l, In tx l -> In ("Today", tx) (label n l)).
  { intros n l. revert n.
    induction l as [|x l IH]; intros n H; [contradiction|].
    destruct H as [->|H].
    - unfold label. simpl. rewrite Ht. left.
      unfold Grouping.sectionTitle. unfold today. now rewrite Same.
    - unfold label in *. simpl. destruct (time x); right; now apply IH. }
  specialize (L 2%nat txs Hin).
  exists {| Grouping.title := "Today";
            Grouping.data := select "Today" (label 2 txs) |}.
  split; [|split; [reflexivity | now apply select_In]].
  rewrite sections_shape. apply in_map_iff. exists "Today".
  split; [reflexivity|]. apply firstSeen_In, in_map_iff.
  now exists ("Today", tx).
Qed.

End Paged.

Example two_pages_grouped :
  Cases.group (Cases.firstPage ++ Cases.secondPage)
  = [{| Grouping.title := "Today";
        Grouping.data := [Samples.at_time "s1" (10 * 86400000 + 60000);
                          Cases.untimed] |};
     {| Grouping.title := "H";
        Grouping.data := [Samples.at_time "s2" (7 * 86400000 + 500);
                          Samples.at_time "s3" (7 * 86400000)] |};
     {| Grouping.title := "F";
        Grouping.data := [Samples.at_time "s4" (5 * 86400000)] |}].
Proof. reflexivity. Qed.

Lemma sections_are_not_empty_witness :
  Grouping.data
    {| Grouping.title := "H";
       Grouping.data := [Samples.at_time "s2" (7 * 86400000 + 500)] |}
  <> [].
Proof.
  apply (sections_are_not_empty Samples.noField Samples.noField
           Samples.dayOf Samples.setDay Samples.dayLabel Samples.noon
           Cases.firstPage).
  vm_compute. right. left. reflexivity.
Defined.

Lemma appended_page_extends_sections_witness :
  In {| Grouping.title := "H";
        Grouping.data := [Samples.at_time "s2" (7 * 86400000 + 500);
                          Samples.at_time "s3" (7 * 86400000)] |}
     (Cases.group (Cases.firstPage ++ Cases.secondPage)).
Proof.
  apply (proj1 (proj2 (proj2
           (appended_page_extends_sections Samples.noField
              Samples.noField Samples.dayOf Samples.setDay
              Samples.dayLabel Samples.noon Cases.firstPage
              Cases.secondPage)))
           {| Grouping.title := "H";
              Grouping.data :=
                [Samples.at_time "s2" (7 * 86400000 + 500)] |}).
  vm_compute. right. left. reflexivity.
Defined.

Lemma untimed_events_are_today_witness :
  exists s,
    In s (Cases.group (Cases.firstPage ++ Cases.secondPage))
    /\ Grouping.title s = "Today"
    /\ In Cases.untimed (Grouping.data s).
Proof.
  apply (untimed_events_are_today Samples.noField Samples.noField
           Samples.dayOf Samples.setDay Samples.dayLabel Samples.noon
           (Cases.firstPage ++ Cases.secondPage) Cases.untimed).
  - intros n. reflexivity.
  - vm_compute. do 4 right. left. reflexivity.
  - reflexivity.
Defined.

(** ** The handlers of the history screen *)

Lemma fetch_success
    (fetch : option string -> option (list FormattedTransaction))
    (reset : bool) (s : State) (data : list FormattedTransaction) :
  fetch (if reset then None else lastSignature s) = Some data ->
  exec (fetchTransactions fetch reset) s
  = {| transactions := if reset then data else transactions s ++ data;
       loading := false;
       refreshing := refreshing s;
       loadingMore := loadingMore s;
       error := None;
       lastSignature :=
         match data with
         | [] => if reset then None else lastSignature s
         | _ :: _ =>
             match nth_error data (List.length data - 1) with
             | Some e => signature e
             | None => None
             end
         end;
       hasMore :=
         match data with
         | [] => false
         | _ :: _ => if reset then true else hasMore s
         end |}.
Proof.
  intros F. run_handler. simpl. rewrite F.
  destruct reset, data as [|e data]; reflexivity.
Qed.

Lemma fetch_failure
    (fetch : option string -> option (list FormattedTransaction))
    (reset : bool) (s : State) :
  fetch (if reset then None else lastSignature s) = None ->
  exec (fetchTransactions fetch reset) s
  = {| transactions := transactions s;
       loading := false;
       refreshing := refreshing s;
       loadingMore := loadingMore s;
       error := Some "Error loading transactions";
       lastSignature := if reset then None else lastSignature s;
       hasMore := if reset then true else hasMore s |}.
Proof.
  intros F. run_handler. simpl. rewrite F. destruct reset; reflexivity.
Qed.

(** X18.  The handlers never throw and always lower their busy flags,
    whether the fetch succeeds or fails: [fetchTransactions] ends with
    [loading] false, [onRefresh] with [refreshing] and [loading] false, and
    a [loadMore] started while no load is in flight ends with
    [loadingMore] false. *)
Theorem handlers_settle
    (fetch : option string -> option (list FormattedTransaction))
    (s : State) :
  (forall reset,
      fst (fetchTransactions fetch reset s) = Ok tt
      /\ loading (exec (fetchTransactions fetch reset) s) = false)
  /\ (fst (onRefresh fetch s) = Ok tt
      /\ refreshing (exec (onRefresh fetch) s) = false
      /\ loading (exec (onRefresh fetch) s) = false)
  /\ (fst (loadMore fetch s) = Ok tt
      /\ (loadingMore s = false ->
          loadingMore (exec (loadMore fetch) s) = false)).
Proof.
  split; [|split].
  - intros reset. run_handler. simpl.
    destruct reset; simpl;
      match goal with |- context [fetch ?c] => destruct (fetch c) as [d|] end;
      simpl; try (destruct d); simpl; split; reflexivity.
  - run_handler. simpl. destruct (fetch None) as [d|]; simpl;
      try (destruct d); simpl; repeat split; reflexivity.
  - run_handler. simpl.
    destruct (loadingMore s) eqn:L, (hasMore s) eqn:H; simpl;
      try (split; [reflexivity | congruence]).
    destruct (fetch (lastSignature s)) as [d|]; simpl;
      try (destruct d); simpl; split; reflexivity.
Qed.

Lemma handlers_settle_witness :
  loadingMore (exec (loadMore Samples.unreachable) Samples.shown) = false.
Proof.
  apply (proj2 (proj2 (proj2 (handlers_settle Samples.unreachable
                                Samples.shown)))).
  reflexivity.
Defined.

(** X19.  A successful reload replaces the list by the fetched page,
    whatever was shown, puts the cursor on the signature of the last event
    of the page (no cursor for an empty page) and clears the error. *)
Theorem reload_replaces_list
    (fetch : option string -> option (list FormattedTransaction))
    (s : State) (data : list FormattedTransaction) :
  fetch None = Some data ->
  let s' := exec (fetchTransactions fetch true) s in
  transactions s' = data
  /\ lastSignature s'
     = match nth_error data (List.length data - 1) with
       | Some e => signature e
       | None => None
       end
  /\ error s' = None.
Proof.
  intros F s'. subst s'. rewrite (fetch_success fetch true s data F).
  cbn [transactions lastSignature error].
  destruct data; repeat split; reflexivity.
Qed.

Lemma reload_replaces_list_witness :
  transactions (exec (fetchTransactions Samples.ledger true) Samples.shown)
  = [Samples.paymentEvent]
  /\ lastSignature
       (exec (fetchTransactions Samples.ledger true) Samples.shown)
     = Some "sigPayment"
  /\ error (exec (fetchTransactions Samples.ledger true) Samples.shown)
     = None.
Proof.
  apply (reload_replaces_list Samples.ledger Samples.shown
           [Samples.paymentEvent]).
  reflexivity.
Defined.

(** X20.  Reloading twice in a row against the same answers of the node
    leaves the screen in the state the first reload left, whether the
    fetch succeeds or fails. *)
Theorem reload_is_idempotent
    (fetch : option string -> option (list FormattedTransaction))
    (s : State) :
  exec (fetchTransactions fetch true)
       (exec (fetchTransactions fetch true) s)
  = exec (fetchTransactions fetch true) s.
Proof.
  destruct (fetch None) as [data|] eqn:F.
  - now rewrite !(fetch_success fetch true _ data F).
  - now rewrite !(fetch_failure fetch true _ F).
Qed.

(** X21.  A successful fetch of an older page appends the page to the
    list, so the events already shown keep their places; the cursor moves
    to the signature of the last event of the page, and stays where it is
    when the page is empty. *)
Theorem older_page_is_appended
    (fetch : option string -> option (list FormattedTransaction))
    (s : State) (data : list FormattedTransaction) :
  fetch (lastSignature s) = Some data ->
  let s' := exec (fetchTransactions fetch false) s in
  transactions s' = transactions s ++ data
  /\ (data = [] -> lastSignature s' = lastSignature s)
  /\ (forall e,
        nth_error data (List.length data - 1) = Some e ->
        lastSignature s' = signature e)
  /\ error s' = None.
Proof.
  intros F s'. subst s'. rewrite (fetch_success fetch false s data F).
  cbn [transactions lastSignature error]. repeat split.
  - now intros ->.
  - intros e He. destruct data as [|x data]; [discriminate|].
    now rewrite He.
Qed.

Lemma older_page_is_appended_witness :
  transactions (exec (fetchTransactions Samples.ledger false) Samples.shown)
  = transactions Samples.shown ++ []
  /\ lastSignature
       (exec (fetchTransactions Samples.ledger false) Samples.shown)
     = lastSignature Samples.shown.
Proof.
  destruct (older_page_is_appended Samples.ledger Samples.shown [] eq_refl)
    as (T & C & _).
  split; [exact T | now apply C].
Defined.

Lemma failed_older_page_keeps_cursor_witness :
  transactions
    (exec (fetchTransactions Samples.unreachable false) Samples.shown)
  = transactions Samples.shown
  /\ lastSignature
       (exec (fetchTransactions Samples.unreachable false) Samples.shown)
     = lastSignature Samples.shown
  /\ hasMore
       (exec (fetchTransactions Samples.unreachable false) Samples.shown)
     = hasMore Samples.shown
  /\ error
       (exec (fetchTransactions Samples.unreachable false) Samples.shown)
     = Some "Error loading transactions".
Proof.
  apply (failed_older_page_keeps_cursor Samples.unreachable Samples.shown).
  reflexivity.
Defined.

(** X23.  Reload, then load more: when the reload brings a page whose
    last event is [e0] and the node answers [page1] for the events older
    than the signature of [e0], the list is the first page followed by
    [page1]. *)
Theorem second_page_follows_first
    (fetch : option string -> option (list FormattedTransaction))
    (s : State) (page0 page1 : list FormattedTransaction)
    (e0 : FormattedTransaction) :
  loadingMore s = false ->
  fetch None = Some page0 ->
  nth_error page0 (List.length page0 - 1) = Some e0 ->
  fetch (signature e0) = Some page1 ->
  transactions
    (exec (loadMore fetch) (exec (fetchTransactions fetch true) s))
  = page0 ++ page1.
Proof.
  intros L F0 Last F1.
  rewrite (fetch_success fetch true s page0 F0).
  destruct page0 as [|x page0]; [discriminate|].
  rewrite Last.
  run_handler. cbn [loadingMore hasMore lastSignature transactions].
  rewrite L. cbn [orb negb]. simpl. rewrite F1.
  destruct page1; reflexivity.
Qed.

Lemma second_page_follows_first_witness :
  transactions
    (exec (loadMore Cases.twoPages)
       (exec (fetchTransactions Cases.twoPages true) Samples.shown))
  = [Cases.tradeSolEvent; Cases.tradeUsdcEvent] ++ [Samples.paymentEvent].
Proof.
  apply (second_page_follows_first Cases.twoPages Samples.shown
           [Cases.tradeSolEvent; Cases.tradeUsdcEvent]
           [Samples.paymentEvent] Cases.tradeUsdcEvent);
    reflexivity.
Defined.

(** ** The service *)

Lemma all_rejected (A : Type) (calls : list (Service.Promise A)) :
  (exists reason, Service.all calls = Service.Rejected reason)
  <-> exists reason, In (Service.Rejected reason) calls.
Proof.
  induction calls as [|[a|r] calls IH]; simpl.
  - split; [intros (r & H); discriminate | intros (r & [])].
  - destruct (Service.all calls) as [l|r'].
    + split; [intros (r & H); discriminate|].
      intros (r & [H|H]); [discriminate|].
      destruct (proj2 IH) as (r0 & H0); [now exists r | discriminate].
    + split.
      * intros _. destruct (proj1 IH) as (r & H); [now exists r'|].
        exists r. now right.
      * intros _. now exists r'.
  - split; intros _; exists r; [now left | reflexivity].
Qed.

Lemma all_fulfilled (A B : Type) (f : A -> Service.Promise B)
    (xs : list A) :
  (forall x, In x xs -> exists b, f x = Service.Fulfilled b) ->
  exists bs,
    Service.all (map f xs) = Service.Fulfilled bs
    /\ map Service.Fulfilled bs = map f xs.
Proof.
  induction xs as [|x xs IH]; intros H; simpl.
  - now exists [].
  - destruct (H x) as (b & Hb); [now left|]. rewrite Hb.
    destruct IH as (bs & E & M); [intros y Hy; apply H; now right|].
    rewrite E. exists (b :: bs). split; [reflexivity|].
    simpl. now rewrite M.
Qed.

(** X24.  [getTransactionsHistory] answers [null] exactly when something
    failed: the wallet address is not a valid key, the request for the
    signatures is rejected, or the request for one of the transactions is
    rejected.  One rejected transaction loses the whole page. *)
Theorem history_null_iff_failure (isPublicKey : string -> bool)
    (connection : Service.Connection) (walletAddress : string)
    (isLastTransaction : bool) (lastSignature : option string) :
  Service.getTransactionsHistory isPublicKey connection walletAddress
    isLastTransaction lastSignature = None
  <-> (isPublicKey walletAddress = false
       \/ (exists reason,
             Service.getSignaturesForAddress connection walletAddress
               (if isLastTransaction then 1%nat else 20%nat) lastSignature
             = Service.Rejected reason)
       \/ (exists signatures sig reason,
             Service.getSignaturesForAddress connection walletAddress
               (if isLastTransaction then 1%nat else 20%nat) lastSignature
             = Service.Fulfilled signatures
             /\ In sig signatures
             /\ Service.getParsedTransaction connection sig
                = Service.Rejected reason)).
Proof.
  unfold Service.getTransactionsHistory.
  destruct (isPublicKey walletAddress); simpl;
    [|split; [now left | reflexivity]].
  destruct (Service.getSignaturesForAddress connection walletAddress _ _)
    as [signatures|reason].
  - destruct signatures as [|sig0 signatures].
    + simpl. split; [discriminate|].
      intros [H | [(r & H) | (l & sig & r & [= <-] & [] & _)]];
        discriminate.
    + cbn [List.length Nat.eqb].
      destruct (Service.all
                  (map (Service.getParsedTransaction connection)
                     (sig0 :: signatures))) as [txs|r] eqn:All.
      * split; [discriminate|].
        intros [H | [(r & H) | (l & sig & r & [= <-] & Hin & Hr)]];
          try discriminate.
        exfalso.
        destruct (proj2 (all_rejected _
                           (map (Service.getParsedTransaction connection)
                              (sig0 :: signatures)))) as (r' & Hr').
        { exists r. rewrite <- Hr. now apply in_map. }
        rewrite All in Hr'. discriminate.
      * split; [intros _ | reflexivity]. right. right.
        destruct (proj1 (all_rejected _
                           (map (Service.getParsedTransaction connection)
                              (sig0 :: signatures)))) as (r' & Hr').
        { now exists r. }
        apply in_map_iff in Hr'. destruct Hr' as (sig & Hsig & Hin).
        now exists (sig0 :: signatures), sig, r'.
  - split; [intros _ | reflexivity]. right. left. now exists reason.
Qed.

Lemma history_null_iff_failure_witness :
  Service.getTransactionsHistory Cases.anyKey Cases.offline Samples.alice
    false None = None.
Proof.
  apply (proj2 (history_null_iff_failure Cases.anyKey Cases.offline
                  Samples.alice false None)).
  right. left. eexists. reflexivity.
Defined.

Lemma history_page (isPublicKey : string -> bool)
    (connection : Service.Connection) (walletAddress : string)
    (isLastTransaction : bool) (lastSignature : option string)
    (signatures : list string) :
  isPublicKey walletAddress = true ->
  Service.getSignaturesForAddress connection walletAddress
    (if isLastTransaction then 1%nat else 20%nat) lastSignature
  = Service.Fulfilled signatures ->
  (forall sig,
      In sig signatures ->
      exists tx,
        Service.getParsedTransaction connection sig = Service.Fulfilled tx) ->
  Service.getTransactionsHistory isPublicKey connection walletAddress
    isLastTransaction lastSignature
  = Some
      (flat_map
         (fun sig =>
            match Service.getParsedTransaction connection sig with
            | Service.Fulfilled (Some tx) => eventsOf walletAddress tx
            | _ => []
            end)
         signatures).
Proof.
  intros Key Sigs Txs. unfold Service.getTransactionsHistory.
  rewrite Key, Sigs. cbn [negb].
  destruct signatures as [|sig0 signatures]; [reflexivity|].
  cbn [List.length Nat.eqb].
  destruct (all_fulfilled _ _ _ _ Txs) as (txs & All & M).
  rewrite All. f_equal. rewrite formatTransactions_flat_map.
  clear All Sigs Txs. revert txs M.
  generalize (sig0 :: signatures) as sigs.
  induction sigs as [|sig sigs IH]; intros txs M.
  - destruct txs; [reflexivity | discriminate].
  - destruct txs as [|tx txs]; [discriminate|].
    simpl in M. injection M as M0 M.
    cbn [flat_map]. rewrite <- M0, <- (IH txs M).
    unfold Service.nonNull. cbn [flat_map]. rewrite flat_map_app.
    destruct tx; simpl; [now rewrite app_nil_r | reflexivity].
Qed.

(** X25.  When nothing fails, the page is made of the events of each
    signature, in the order of the signatures given by the node; a
    signature whose transaction the node does not find contributes
    nothing.  The node is asked for 1 signature when only the last
    transaction is wanted, and for 20 otherwise. *)
Theorem history_follows_signatures (isPublicKey : string -> bool)
    (connection : Service.Connection) (walletAddress : string)
    (isLastTransaction : bool) (lastSignature : option string)
    (signatures : list string) :
  isPublicKey walletAddress = true ->
  Service.getSignaturesForAddress connection walletAddress
    (if isLastTransaction then 1%nat else 20%nat) lastSignature
  = Service.Fulfilled signatures ->
  (forall sig,
      In sig signatures ->
      exists tx,
        Service.getParsedTransaction connection sig = Service.Fulfilled tx) ->
  Service.getTransactionsHistory isPublicKey connection walletAddress
    isLastTransaction lastSignature
  = Some
      (flat_map
         (fun sig =>
            match Service.getParsedTransaction connection sig with
            | Service.Fulfilled (Some tx) => eventsOf walletAddress tx
            | _ => []
            end)
         signatures).
Proof.
  intros Key Sigs Txs. now apply history_page.
Qed.

Lemma history_follows_signatures_witness :
  Service.getTransactionsHistory Cases.anyKey Cases.node Samples.alice
    false None
  = Some
      (flat_map
         (fun sig =>
            match Service.getParsedTransaction Cases.node sig with
            | Service.Fulfilled (Some tx) => eventsOf Samples.alice tx
            | _ => []
            end)
         ["sigTrade"; "sigLost"; "sigFailed"]).
Proof.
  apply (history_follows_signatures Cases.anyKey Cases.node Samples.alice
           false None ["sigTrade"; "sigLost"; "sigFailed"]).
  - reflexivity.
  - reflexivity.
  - intros sig Hsig. simpl.
    destruct (sig =? "sigTrade")%string; [eexists; reflexivity|].
    destruct (sig =? "sigFailed")%string; eexists; reflexivity.
Defined.

Example node_page :
  Service.getTransactionsHistory Cases.anyKey Cases.node Samples.alice
    false None
  = Some [Cases.tradeSolEvent; Cases.tradeUsdcEvent].
Proof. reflexivity. Qed.

Lemma flat_map_all_nil (A B : Type) (f : A -> list B) (l : list A) :
  (forall x, In x l -> f x = []) -> flat_map f l = [].
Proof.
  induction l as [|x l IH]; intros H; [reflexivity|].
  simpl. rewrite (H x) by now left. apply IH. intros y Hy. apply H.
  now right.
Qed.

(** X26.  A page none of whose transactions yields an event ends the
    pagination: when the node returns signatures for the events older than
    the cursor but every transaction found for them contributes no event
    (all failed on chain, for instance), [loadMore] leaves the list and the
    cursor as they are and sets [hasMore] to false. *)
Theorem eventless_page_ends_pagination (isPublicKey : string -> bool)
    (connection : Service.Connection) (walletAddress : string)
    (s : State) (signatures : list string) :
  loadingMore s = false ->
  hasMore s = true ->
  isPublicKey walletAddress = true ->
  Service.getSignaturesForAddress connection walletAddress 20%nat
    (lastSignature s) = Service.Fulfilled signatures ->
  (forall sig,
      In sig signatures ->
      exists tx,
        Service.getParsedTransaction connection sig = Service.Fulfilled tx
        /\ match tx with
           | Some tx => eventsOf walletAddress tx = []
           | None => True
           end) ->
  let s' :=
    exec (loadMore
            (Service.getTransactionsHistory isPublicKey connection
               walletAddress false)) s in
  hasMore s' = false
  /\ transactions s' = transactions s
  /\ lastSignature s' = lastSignature s.
Proof.
  intros L H Key Sigs Txs s'.
  assert (Page : Service.getTransactionsHistory isPublicKey connection
                   walletAddress false (lastSignature s) = Some []).
  { rewrite (history_page isPublicKey connection walletAddress false
               (lastSignature s) signatures Key Sigs).
    - f_equal. apply flat_map_all_nil. intros sig Hsig.
      destruct (Txs sig Hsig) as (tx & -> & E). now destruct tx.
    - intros sig Hsig. destruct (Txs sig Hsig) as (tx & E & _).
      now exists tx. }
  subst s'. run_handler.
  cbn [loadingMore hasMore lastSignature transactions].
  rewrite L, H. cbn [orb negb]. simpl. rewrite Page. simpl.
  repeat split. apply app_nil_r.
Qed.

Lemma eventless_page_ends_pagination_witness :
  hasMore
    (exec (loadMore
             (Service.getTransactionsHistory Cases.anyKey Cases.failedOnly
                Samples.alice false)) Samples.shown)
  = false
  /\ transactions
       (exec (loadMore
                (Service.getTransactionsHistory Cases.anyKey
                   Cases.failedOnly Samples.alice false)) Samples.shown)
     = transactions Samples.shown
  /\ lastSignature
       (exec (loadMore
                (Service.getTransactionsHistory Cases.anyKey
                   Cases.failedOnly Samples.alice false)) Samples.shown)
     = lastSignature Samples.shown.
Proof.
  apply (eventless_page_ends_pagination Cases.anyKey Cases.failedOnly
           Samples.alice Samples.shown ["sigFailed"]);
    try reflexivity.
  intros sig _. eexists. split; reflexivity.
Defined.

(** ** The last transaction *)

(** X27.  With the service as the source of the history, the hook never
    reports an error: the service turns every failure into [null], which
    the hook takes for an empty history.  After [fetchTransaction] the
    loading flag is down, [error] is [null], and the last transaction is
    the first event of the page of one signature, or [null] when the
    service failed or the page is empty. *)
Theorem last_transaction_hides_fetch_failure
    (isPublicKey : string -> bool) (connection : Service.Connection)
    (getTokensPrice :
       list string -> Service.Promise (option LastTransaction.Prices))
    (wallet : string) (s : LastTransaction.State) :
  let s' :=
    LastTransaction.fetchTransaction
      (fun wallet =>
         Service.Fulfilled
           (Service.getTransactionsHistory isPublicKey connection wallet
              true None))
      getTokensPrice (Some wallet) true s in
  LastTransaction.error s' = None
  /\ LastTransaction.isLoadTransaction s' = false
  /\ LastTransaction.lastTransaction s'
     = match
         Service.getTransactionsHistory isPublicKey connection wallet
           true None
       with
       | Some (transaction :: _) => Some transaction
       | _ => None
       end.
Proof.
  unfold LastTransaction.fetchTransaction.
  destruct (Service.getTransactionsHistory isPublicKey connection wallet
              true None) as [[|transaction rest]|];
    repeat split.
Qed.

Example last_transaction_offline :
  LastTransaction.fetchTransaction
    (fun wallet =>
       Service.Fulfilled
         (Service.getTransactionsHistory Cases.anyKey Cases.offline wallet
            true None))
    (fun ids => Service.Fulfilled None) (Some Samples.alice) true
    {| LastTransaction.lastTransaction := Some Samples.paymentEvent;
       LastTransaction.lastTransactionTokenPrice := 170;
       LastTransaction.isLoadTransaction := false;
       LastTransaction.error := None |}
  = {| LastTransaction.lastTransaction := None;
       LastTransaction.lastTransactionTokenPrice := 0;
       LastTransaction.isLoadTransaction := false;
       LastTransaction.error := None |}.
Proof. reflexivity. Qed.

(** ** Friendly error messages *)

Lemma prefix_trans p q s :
  prefix p q = true -> prefix q s = true -> prefix p s = true.
Proof.
  revert q s. induction p as [|c p IH]; intros q s Hpq Hqs;
    [now destruct s|].
  destruct q as [|d q]; [discriminate|].
  destruct s as [|e s]; [discriminate|].
  simpl in *.
  destruct (Ascii.ascii_dec c d) as [->|]; [|discriminate].
  destruct (Ascii.ascii_dec d e) as [->|]; [|discriminate].
  now apply (IH q s).
Qed.

Lemma includes_prefix p q s :
  prefix p q = true ->
  ErrorParser.includes s q = true -> ErrorParser.includes s p = true.
Proof.
  intros Hpq.
  induction s as [|c s IH]; cbn [ErrorParser.includes];
    rewrite !orb_true_iff.
  - intros [H|H]; [|discriminate]. left. now apply (prefix_trans p q).
  - intros [H|H]; [left; now apply (prefix_trans p q) | right; now apply IH].
Qed.

(** The friendly message is always one of six fixed texts; the text
    of the error itself is never shown. *)
Theorem friendly_message_is_fixed (error : ErrorParser.Caught) :
  In (ErrorParser.getFriendlyErrorMessage error)
     ["Transaction data size exceeded. Please swipe again.";
      "Insufficient balance to pay for gas fee.";
      "Network timed out. Please swipe again.";
      "Wallet Error: Please create a new wallet via Dashboard.";
      "Transaction cancelled.";
      "Transaction failed. Please try again."].
Proof.
  unfold ErrorParser.getFriendlyErrorMessage.
  repeat match goal with
         | |- context [if ?c then _ else _] => destruct c
         end;
    simpl; tauto.
Qed.

(** X28.  An error whose message holds a code that starts with "0x1" is
    reported as a size error or as insufficient balance, never as a
    network timeout: the test for "0x1" comes before the test for
    "0x1783", which therefore never decides. *)
Theorem code_0x1_reads_insufficient_balance (error : ErrorParser.Caught)
    (code : string) :
  ErrorParser.includes (ErrorParser.messageOf error) ("0x1" ++ code)%string
  = true ->
  ErrorParser.getFriendlyErrorMessage error
  = "Transaction data size exceeded. Please swipe again."
  \/ ErrorParser.getFriendlyErrorMessage error
     = "Insufficient balance to pay for gas fee.".
Proof.
  intros H.
  assert (P : prefix "0x1" ("0x1" ++ code)%string = true).
  { simpl. repeat (destruct (Ascii.ascii_dec _ _); [|congruence]).
    now destruct code. }
  pose proof (includes_prefix _ _ _ P H) as I.
  unfold ErrorParser.getFriendlyErrorMessage.
  destruct (_ || _); [now left|]. rewrite I, orb_true_r. now right.
Qed.

Lemma code_0x1_reads_insufficient_balance_witness :
  ErrorParser.getFriendlyErrorMessage
    (ErrorParser.Value (Some "custom program error: 0x1783")
       "Error: custom program error: 0x1783")
  = "Transaction data size exceeded. Please swipe again."
  \/ ErrorParser.getFriendlyErrorMessage
       (ErrorParser.Value (Some "custom program error: 0x1783")
          "Error: custom program error: 0x1783")
     = "Insufficient balance to pay for gas fee.".
Proof.
  apply (code_0x1_reads_insufficient_balance
           (ErrorParser.Value (Some "custom program error: 0x1783")
              "Error: custom program error: 0x1783") "783").
  reflexivity.
Defined.

(** ** timeAgo *)

Section Ago.

Variable parse : string -> option Z.
Variable now : Z.

(** X29.  A timestamp less than five seconds old, or in the future, reads
    "just now". *)
Theorem recent_or_future_is_just_now (timestamp : string) (date : Z) :
  timestamp <> "" ->
  parse timestamp = Some date ->
  now - date < 5000 ->
  FormatTime.timeAgo parse now (Some timestamp) = "just now".
Proof.
  intros Ne P H. unfold FormatTime.timeAgo.
  destruct (String.eqb_spec timestamp ""); [contradiction|].
  rewrite P. cbv zeta.
  destruct (Z.ltb_spec ((now - date) / 1000) 5) as [|G]; [reflexivity|].
  exfalso. assert ((now - date) / 1000 < 5); [|lia].
  apply Z.div_lt_upper_bound; lia.
Qed.

(** X30.  For a timestamp at least five seconds old the text is a count, a
    unit and "ago"; the count is never zero and stays within the unit: 5
    to 59 seconds, 1 to 59 minutes, 1 to 23 hours, 1 to 29 days, 1 to 12
    months (of 30 days), or at least 1 year (of 365 days). *)
Theorem count_within_unit (timestamp : string) (date : Z) :
  timestamp <> "" ->
  parse timestamp = Some date ->
  5000 <= now - date ->
  exists (n : Z) (unit : string),
    FormatTime.timeAgo parse now (Some timestamp)
    = (FormatTime.show n ++ " " ++ unit ++ " ago")%string
    /\ ((unit = "seconds" /\ 5 <= n < 60)
        \/ (unit = "minutes" /\ 1 <= n < 60)
        \/ (unit = "hours" /\ 1 <= n < 24)
        \/ (unit = "days" /\ 1 <= n < 30)
        \/ (unit = "months" /\ 1 <= n <= 12)
        \/ (unit = "years" /\ 1 <= n)).
Proof.
  intros Ne P H. unfold FormatTime.timeAgo.
  destruct (String.eqb_spec timestamp ""); [contradiction|].
  rewrite P. cbv zeta.
  set (diff := (now - date) / 1000).
  assert (5 <= diff) by (apply Z.div_le_lower_bound; lia).
  destruct (Z.ltb_spec diff 5); [lia|].
  destruct (Z.ltb_spec diff 60).
  { exists diff, "seconds". split; [reflexivity|]. left.
    split; [reflexivity | lia]. }
  destruct (Z.ltb_spec diff 3600).
  { exists (diff / 60), "minutes". split; [reflexivity|].
    right; left. split; [reflexivity|]. split.
    - apply Z.div_le_lower_bound; lia.
    - apply Z.div_lt_upper_bound; lia. }
  destruct (Z.ltb_spec diff 86400).
  { exists (diff / 3600), "hours". split; [reflexivity|].
    right; right; left. split; [reflexivity|]. split.
    - apply Z.div_le_lower_bound; lia.
    - apply Z.div_lt_upper_bound; lia. }
  destruct (Z.ltb_spec diff 2592000).
  { exists (diff / 86400), "days". split; [reflexivity|].
    right; right; right; left. split; [reflexivity|]. split.
    - apply Z.div_le_lower_bound; lia.
    - apply Z.div_lt_upper_bound; lia. }
  destruct (Z.ltb_spec diff 31536000).
  { exists (diff / 2592000), "months". split; [reflexivity|].
    right; right; right; right; left. split; [reflexivity|]. split.
    - apply Z.div_le_lower_bound; lia.
    - assert (diff / 2592000 < 13); [|lia].
      apply Z.div_lt_upper_bound; lia. }
  exists (diff / 31536000), "years". split; [reflexivity|].
  do 5 right. split; [reflexivity|].
  apply Z.div_le_lower_bound; lia.
Qed.

End Ago.

Lemma recent_or_future_is_just_now_witness :
  FormatTime.timeAgo (fun _ => Some 1709300000000) 1709299990000
    (Some "2024-03-01T13:33:20.000Z")
  = "just now".
Proof.
  apply (recent_or_future_is_just_now (fun _ => Some 1709300000000)
           1709299990000 "2024-03-01T13:33:20.000Z" 1709300000000).
  - discriminate.
  - reflexivity.
  - lia.
Defined.

Lemma count_within_unit_witness :
  exists (n : Z) (unit : string),
    FormatTime.timeAgo (fun _ => Some 0) 31535999000 (Some "1970-01-01")
    = (FormatTime.show n ++ " " ++ unit ++ " ago")%string
    /\ ((unit = "seconds" /\ 5 <= n < 60)
        \/ (unit = "minutes" /\ 1 <= n < 60)
        \/ (unit = "hours" /\ 1 <= n < 24)
        \/ (unit = "days" /\ 1 <= n < 30)
        \/ (unit = "months" /\ 1 <= n <= 12)
        \/ (unit = "years" /\ 1 <= n)).
Proof.
  apply (count_within_unit (fun _ => Some 0) 31535999000 "1970-01-01" 0).
  - discriminate.
  - reflexivity.
  - lia.
Defined.

Example twelve_months_ago :
  FormatTime.timeAgo (fun _ => Some 0) 31535999000 (Some "1970-01-01")
  = "12 months ago".
Proof. reflexivity. Qed.
